(** * Self-correcting retrieval workflows: routers, steps and their graphs

    A shallow embedding of the two LangGraph example projects:

    - [Adaptive] embeds proj1-adaptive-rag (router-first topology):
      models.py, tools.py, graph_nodes.py, graph_edges.py, workflow.py;
    - [Agentic] embeds proj2-agentiic-rag (agent-first topology):
      src/nodes.py, src/workflow.py, src/main.py.

    The language models, the retriever and the search tool are external
    services.  Each of them is an oracle that sees the history of all earlier
    calls, so an oracle may answer the same request differently at different
    moments of a run.  Every call is appended to that history. *)

From stdpp Require Import gmap strings list fin_maps pretty.
From Stdlib Require Import ZArith Ascii.

(** ** Python results: a value or a raised exception *)

Inductive Fault :=
| KeyError (key : string)                 (* state["key"] on a missing key *)
| IndexError                              (* messages[0] on an empty list *)
| AttributeError (attr : string)          (* d.page_content on a non-document *)
| TypeError (operation : string)          (* len(x) on a value without a length *)
| ConfigurationFault (node : string) (label : option string).

Inductive Result (A : Type) :=
| Ok (a : A)
| Raise (f : Fault).
Arguments Ok {A} a.
Arguments Raise {A} f.

(** A computation that may call the external services: it reads and extends
    the call history [H] and either returns or raises.  The history survives
    an exception. *)
Abbreviation Eff H A := (list H -> Result A * list H)%type (only parsing).

Definition ret {H A} (a : A) : Eff H A := fun h => (Ok a, h).

Definition throw {H A} (f : Fault) : Eff H A := fun h => (Raise f, h).

Definition bind {H A B} (m : Eff H A) (k : A -> Eff H B) : Eff H B :=
  fun h => match m h with
           | (Ok a, h') => k a h'
           | (Raise f, h') => (Raise f, h')
           end.

(** [invoke call answer]: one request to an external service that answers.
    The answer is computed from the history before the request, which is then
    recorded.  A service that raises instead makes the exception leave the
    node and the graph at that request; such a run stops there, so what is
    said below about the steps and calls made so far concerns a run up to its
    last answered request, and nothing is said about what a service may
    raise. *)
Definition invoke {H A} (call : H) (answer : list H -> A) : Eff H A :=
  fun h => (Ok (answer h), h ++ [call]).

(** state["key"] *)
Definition item {H A} (key : string) (field : option A) : Eff H A :=
  match field with
  | Some v => ret v
  | None => throw (KeyError key)
  end.

Notation "'do' x <- m ; k" := (bind m (fun x => k))
  (at level 10, x name, m at level 100, k at level 200, only parsing).

(** ** The graph and its execution loop *)

Definition START : string := "__start__".
Definition END : string := "__end__".

Section Engine.
Context {H State Patch : Type}.

(** The reducers of the state schema: how a patch returned by a node is
    merged into the running state. *)
Variable merge : State -> Patch -> State.

(** add_node, add_edge and add_conditional_edges.  A router returns a label
    (or Python's None); with a path map the label is looked up in it, without
    one the label itself names the next node. *)
Record Graph := {
  nodes : gmap string (State -> Eff H Patch);
  edges : gmap string string;
  branches : gmap string ((State -> Eff H (option string)) * option (gmap string string))
}.

Inductive Status :=
| Running (node : string)
| Done
| Failed (f : Fault).

Record Run := {
  status : Status;
  state : State;
  trace : list (string * Patch);
  log : list H
}.

Definition status_at (dest : string) : Status :=
  if decide (dest = END) then Done else Running dest.

(** Modelled from the spec: the resolution of the next Step through the
    transition table (sections 4.2, 4.3 and 7), done by the graph library and
    not part of the sources.  A node with a conditional edge asks its router;
    a label that the path map does not declare, or no label at all, is a
    configuration fault.  A node without one follows its single edge. *)
Definition advance (g : Graph) (node : string) (s : State) : Eff H string :=
  match branches g !! node with
  | Some (router, path_map) =>
      do label <- router s;
      match label, path_map with
      | Some l, Some pm =>
          match pm !! l with
          | Some dest => ret dest
          | None => throw (ConfigurationFault node label)
          end
      | Some l, None => ret l
      | None, _ => throw (ConfigurationFault node label)
      end
  | None =>
      match edges g !! node with
      | Some dest => ret dest
      | None => throw (ConfigurationFault node None)
      end
  end.

(** Modelled from the spec: one iteration of the Engine's execution loop
    (sections 2 and 4.4) -- execute the current Step, merge its patch into
    the state record, append (stepName, patch) to the trace, resolve the next
    Step through the transition table.  The loop itself is the compiled
    graph of the graph library, which is not part of the sources; the sources
    hand it the input record only (app.stream(inputs)), no step budget. *)
Definition step (g : Graph) (r : Run) : Run :=
  match status r with
  | Running node =>
      match nodes g !! node with
      | None =>
          {| status := Failed (ConfigurationFault node None);
             state := state r; trace := trace r; log := log r |}
      | Some f =>
          match f (state r) (log r) with
          | (Raise e, h) =>
              {| status := Failed e; state := state r; trace := trace r; log := h |}
          | (Ok p, h) =>
              let s := merge (state r) p in
              let t := trace r ++ [(node, p)] in
              match advance g node s h with
              | (Ok dest, h') =>
                  {| status := status_at dest; state := s; trace := t; log := h' |}
              | (Raise e, h') =>
                  {| status := Failed e; state := s; trace := t; log := h' |}
              end
          end
      end
  | Done | Failed _ => r
  end.

(** Modelled from the spec: the initial transition of the Engine (section
    4.4); the edge out of START is resolved on the inputs. *)
Definition init (g : Graph) (inputs : State) (h : list H) : Run :=
  match advance g START inputs h with
  | (Ok dest, h') =>
      {| status := status_at dest; state := inputs; trace := []; log := h' |}
  | (Raise e, h') =>
      {| status := Failed e; state := inputs; trace := []; log := h' |}
  end.

(** The run after at most [n] executed steps. *)
Fixpoint run_for (g : Graph) (n : nat) (r : Run) : Run :=
  match n with
  | O => r
  | S k => run_for g k (step g r)
  end.

(** What app.stream yields last: the patch of the last executed node. *)
Definition last_output (r : Run) : option Patch := snd <$> last (trace r).

(** The patch of the last executed step with the given name. *)
Definition last_step_named (name : string) (t : list (string * Patch)) : option Patch :=
  snd <$> last (filter (fun e => e.1 = name) t).

End Engine.

Arguments Graph : clear implicits.
Arguments Run : clear implicits.

(** * proj1-adaptive-rag: the router-first topology *)

Module Adaptive.

(** ** models.py and the values it is used with *)

(** A langchain Document: its text and its metadata dict (empty unless the
    producer fills it). *)
Record Document := {
  page_content : string;
  metadata : gmap string string
}.

(** The value stored under "documents": retrieve and grade_documents store a
    list of Documents, web_search stores the single Document that
    WebSearchTool.search returns. *)
Inductive Docs :=
| DocList (ds : list Document)
| DocOne (d : Document).

(** GraphState, a dict whose keys may be missing.  The same type serves for
    the dicts the nodes return ("only the fields to update").  The key
    "iterations" is not declared by GraphState; should_continue_retrieval
    looks it up with a default and no node ever returns it. *)
Record GraphState := {
  question : option string;
  generation : option string;
  documents : option Docs;
  iterations : option Z
}.

(** Modelled from the spec: the merge of a patch into the state record
    (section 3), performed by the graph library and not part of the sources.
    The keys of GraphState carry no reducer annotation, so each key named by
    the patch overwrites the stored value and every other key is kept. *)
Definition merge (s p : GraphState) : GraphState :=
  {| question := match question p with Some v => Some v | None => question s end;
     generation := match generation p with Some v => Some v | None => generation s end;
     documents := match documents p with Some v => Some v | None => documents s end;
     iterations := match iterations p with Some v => Some v | None => iterations s end |}.

(** ** The external services *)

Inductive Call :=
| AskRouter (q : string)
| AskRetriever (q : string)
| AskRelevance (q document : string)
| AskGenerator (context : Docs) (q : string)
| AskHallucination (docs : Docs) (answer : string)
| AskAnswer (q answer : string)
| AskRewriter (q : string)
| AskSearch (query : string).

(** What each service answers, given the calls made so far.  The structured
    graders are reduced to the field the code reads (datasource,
    binary_score); a Tavily result is a dict of strings. *)
Record Collaborators := {
  question_router : list Call -> string -> string;
  retriever : list Call -> string -> list Document;
  retrieval_grader : list Call -> string -> string -> string;
  rag_chain : list Call -> Docs -> string -> string;
  hallucination_grader : list Call -> Docs -> string -> string;
  answer_grader : list Call -> string -> string -> string;
  question_rewriter : list Call -> string -> string;
  search_tool : list Call -> string -> list (gmap string string)
}.

(** ** tools.py *)

Definition nl : string := String "010"%char EmptyString.

(** f"结果 {i}:\n{content}\n来源: {url}" *)
Definition format_entry (i : nat) (result : gmap string string) : string :=
  let content := default EmptyString (result !! "content") in
  let url := default EmptyString (result !! "url") in
  "结果 " +:+ pretty i +:+ ":" +:+ nl +:+ content +:+ nl +:+ "来源: " +:+ url.

(** The loop of _format_results: enumerate(results, 1), appending to
    [formatted]. *)
Fixpoint format_loop (i : nat) (results : list (gmap string string))
    (formatted : list string) : list string :=
  match results with
  | [] => formatted
  | result :: rest => format_loop (S i) rest (formatted ++ [format_entry i result])
  end.

Definition _format_results (results : list (gmap string string)) : string :=
  String.concat (nl +:+ nl) (format_loop 1 results []).

(** WebSearchTool.search, which ToolManager.search_web forwards to. *)
Definition search (c : Collaborators) (query : string) : Eff Call Document :=
  do results <- invoke (AskSearch query) (fun h => search_tool c h query);
  let formatted_results := _format_results results in
  ret {| page_content := formatted_results; metadata := ∅ |}.

Definition search_web := search.

(** ** graph_nodes.py *)

Definition patch (documents : option Docs) (question generation : option string) : GraphState :=
  {| question := question; generation := generation; documents := documents;
     iterations := None |}.

(** self.retriever is the retriever the workflow was constructed with,
    vector_store_manager.get_retriever(); [Collaborators] describes a workflow
    whose vector store was built.  On a manager without a store that value is
    None (see [AdaptiveIndex.get_retriever]) and the request itself raises. *)
Definition retrieve (c : Collaborators) (s : GraphState) : Eff Call GraphState :=
  do question <- item "question" (question s);
  do documents <- invoke (AskRetriever question) (fun h => retriever c h question);
  ret (patch (Some (DocList documents)) (Some question) None).

Definition generate (c : Collaborators) (s : GraphState) : Eff Call GraphState :=
  do question <- item "question" (question s);
  do documents <- item "documents" (documents s);
  do generation <- invoke (AskGenerator documents question)
                     (fun h => rag_chain c h documents question);
  ret (patch (Some documents) (Some question) (Some generation)).

(** The for loop of grade_documents over a list of Documents. *)
Fixpoint grade_loop (c : Collaborators) (question : string) (documents : list Document)
    (filtered_docs : list Document) : Eff Call (list Document) :=
  match documents with
  | [] => ret filtered_docs
  | d :: rest =>
      do grade <- invoke (AskRelevance question (page_content d))
                    (fun h => retrieval_grader c h question (page_content d));
      if decide (grade = "yes")
      then grade_loop c question rest (filtered_docs ++ [d])
      else grade_loop c question rest filtered_docs
  end.

(** Iterating over a single Document yields its (field, value) pairs, which
    have no page_content. *)
Definition grade_documents (c : Collaborators) (s : GraphState) : Eff Call GraphState :=
  do question <- item "question" (question s);
  do documents <- item "documents" (documents s);
  match documents with
  | DocList ds =>
      do filtered_docs <- grade_loop c question ds [];
      ret (patch (Some (DocList filtered_docs)) (Some question) None)
  | DocOne _ => throw (AttributeError "page_content")
  end.

Definition transform_query (c : Collaborators) (s : GraphState) : Eff Call GraphState :=
  do question <- item "question" (question s);
  do documents <- item "documents" (documents s);
  do better_question <- invoke (AskRewriter question) (fun h => question_rewriter c h question);
  ret (patch (Some documents) (Some better_question) None).

Definition web_search (c : Collaborators) (s : GraphState) : Eff Call GraphState :=
  do question <- item "question" (question s);
  do web_results <- search_web c question;
  ret (patch (Some (DocOne web_results)) (Some question) None).

(** ** graph_edges.py *)

(** Without an else branch the function falls off its end and returns None. *)
Definition route_question (c : Collaborators) (s : GraphState) : Eff Call (option string) :=
  do question <- item "question" (question s);
  do datasource <- invoke (AskRouter question) (fun h => question_router c h question);
  if decide (datasource = "web_search") then ret (Some "web_search")
  else if decide (datasource = "vectorstore") then ret (Some "vectorstore")
  else ret None.

(** bool(value) for the value under "documents": a list is true when it is
    not empty, a Document always. *)
Definition truthy (v : Docs) : bool :=
  match v with
  | DocList [] => false
  | DocList (_ :: _) => true
  | DocOne _ => true
  end.

(** len(value) for the value under "documents": a Document has no length. *)
Definition len (v : Docs) : Result nat :=
  match v with
  | DocList ds => Ok (length ds)
  | DocOne _ => Raise (TypeError "len")
  end.

(** The generate branch reports len(filtered_documents) before it returns. *)
Definition decide_to_generate (s : GraphState) : Eff Call (option string) :=
  let filtered_documents := default (DocList []) (documents s) in
  if negb (truthy filtered_documents) then ret (Some "transform_query")
  else match len filtered_documents with
       | Ok _ => ret (Some "generate")
       | Raise e => throw e
       end.

Definition grade_generation_v_documents_and_question (c : Collaborators) (s : GraphState)
    : Eff Call (option string) :=
  do question <- item "question" (question s);
  do documents <- item "documents" (documents s);
  do generation <- item "generation" (generation s);
  do grade <- invoke (AskHallucination documents generation)
                (fun h => hallucination_grader c h documents generation);
  if decide (grade = "yes") then
    do grade <- invoke (AskAnswer question generation)
                  (fun h => answer_grader c h question generation);
    if decide (grade = "yes") then ret (Some "useful")
    else ret (Some "not useful")
  else ret (Some "not supported").

Definition should_continue_retrieval (s : GraphState) (max_iterations : Z) : string :=
  let iterations := default 0%Z (iterations s) in
  if (max_iterations <=? iterations)%Z then "stop" else "continue".

(** config.py *)
Definition MAX_ITERATIONS : Z := 3.

(** ** workflow.py *)

Definition build_graph (c : Collaborators) : Graph Call GraphState GraphState :=
  {| nodes :=
       <["web_search" := web_search c]>
       (<["retrieve" := retrieve c]>
       (<["grade_documents" := grade_documents c]>
       (<["generate" := generate c]>
       (<["transform_query" := transform_query c]> ∅))));
     edges :=
       <["web_search" := "generate"]>
       (<["retrieve" := "grade_documents"]>
       (<["transform_query" := "retrieve"]> ∅));
     branches :=
       <[START := (route_question c,
                   Some (<["web_search" := "web_search"]>
                        (<["vectorstore" := "retrieve"]> ∅)))]>
       (<["grade_documents" := (decide_to_generate,
                   Some (<["transform_query" := "transform_query"]>
                        (<["generate" := "generate"]> ∅)))]>
       (<["generate" := (grade_generation_v_documents_and_question c,
                   Some (<["not supported" := "generate"]>
                        (<["useful" := END]>
                        (<["not useful" := "transform_query"]> ∅))))]> ∅)) |}.

(** inputs = {"question": question} *)
Definition inputs (question : string) : GraphState :=
  {| question := Some question; generation := None; documents := None;
     iterations := None |}.

(** app.stream(inputs), observed after at most [n] executed nodes. *)
Definition stream (c : Collaborators) (question : string) (n : nat) : Run Call GraphState GraphState :=
  run_for merge (build_graph c) n (init (build_graph c) (inputs question) []).

(** AdaptiveRAGWorkflow.run: final_state is the value streamed last (None
    when nothing was streamed); an exception of the graph propagates.  While
    the graph is still running there is no result. *)
Definition run (c : Collaborators) (question : string) (n : nat)
    : option (Result (option GraphState)) :=
  let r := stream c question n in
  match status r with
  | Done => Some (Ok (last_output r))
  | Failed f => Some (Raise f)
  | Running _ => None
  end.

(** ** graph_nodes.py: format_final_output; workflow.py: run_with_details *)

Definition fallback : string := "未能生成答案".

(** f"\n问题：{question}\n\n答案：\n{generation}\n", both values read with
    state.get and a default. *)
Definition format_final_output (s : GraphState) : string :=
  let generation := default fallback (generation s) in
  let question := default EmptyString (question s) in
  nl +:+ "问题：" +:+ question +:+ nl +:+ nl +:+ "答案：" +:+ nl +:+ generation +:+ nl.

(** One entry of the execution trace of run_with_details. *)
Record TraceEntry := {
  node : string;
  trace_question : option string;
  has_documents : bool;
  has_generation : bool
}.

(** bool(node_state.get("documents")) and bool(node_state.get("generation")) *)
Definition bool_documents (v : option Docs) : bool :=
  match v with
  | Some d => truthy d
  | None => false
  end.

Definition bool_generation (v : option string) : bool :=
  match v with
  | Some text => if decide (text = EmptyString) then false else true
  | None => false
  end.

Definition trace_entry (node_name : string) (node_state : GraphState) : TraceEntry :=
  {| node := node_name;
     trace_question := question node_state;
     has_documents := bool_documents (documents node_state);
     has_generation := bool_generation (generation node_state) |}.

(** The loop of run_with_details over the streamed outputs.  When the
    output holds documents it reports len(node_state.get("documents", [])),
    which raises on a single Document; the exception leaves the loop. *)
Fixpoint details_loop (outputs : list (string * GraphState))
    (execution_trace : list TraceEntry) (final_state : option GraphState)
    : Result (list TraceEntry * option GraphState) :=
  match outputs with
  | [] => Ok (execution_trace, final_state)
  | (node_name, node_state) :: rest =>
      let execution_trace := execution_trace ++ [trace_entry node_name node_state] in
      if bool_documents (documents node_state) then
        match len (default (DocList []) (documents node_state)) with
        | Ok _ => details_loop rest execution_trace (Some node_state)
        | Raise e => Raise e
        end
      else details_loop rest execution_trace (Some node_state)
  end.

Record Details := {
  details_question : string;
  answer : string;
  execution_trace : list TraceEntry;
  final_state : GraphState
}.

(** run_with_details.  Its loop runs while the outputs are streamed, so an
    exception of the loop ends the call at that output, whatever the graph
    would have done next; final_state.get on None raises AttributeError. *)
Definition run_with_details (c : Collaborators) (question : string) (n : nat)
    : option (Result Details) :=
  let r := stream c question n in
  match details_loop (trace r) [] None with
  | Raise e => Some (Raise e)
  | Ok (execution_trace, final_state) =>
      match status r with
      | Done =>
          Some (match final_state with
                | Some final_state =>
                    Ok {| details_question := question;
                          answer := default fallback (generation final_state);
                          execution_trace := execution_trace;
                          final_state := final_state |}
                | None => Raise (AttributeError "get")
                end)
      | Failed f => Some (Raise f)
      | Running _ => None
      end
  end.

End Adaptive.

(** * proj2-agentiic-rag: the agent-first topology *)

Module Agentic.

(** A chat message: its text and the retriever-tool calls it requests (the
    query of each call; empty for a plain answer). *)
Record Message := {
  content : string;
  tool_calls : list string
}.

(** AgentState; also the type of the dicts the nodes return. *)
Record AgentState := {
  messages : list Message
}.

(** Modelled from the spec: the merge of a patch into the state record
    (section 3), performed by the graph library and not part of the sources.
    AgentState annotates its only key with add_messages, which the source
    comments as "append" (the default being "replace"). *)
Definition merge (s p : AgentState) : AgentState :=
  {| messages := messages s ++ messages p |}.

Inductive Call :=
| AskAgent (transcript : list Message)
| AskTool (query : string)
| AskGrader (q context : string)
| AskRewriter (msg : list Message)
| AskRag (context q : string).

Record Collaborators := {
  agent_model : list Call -> list Message -> Message;
  retriever_tool : list Call -> string -> string;
  grader : list Call -> string -> string -> string;
  rewriter_model : list Call -> list Message -> Message;
  rag_chain : list Call -> string -> string -> string
}.

(** messages[0] and messages[-1] *)
Definition first_message (messages : list Message) : Eff Call Message :=
  match head messages with
  | Some m => ret m
  | None => throw IndexError
  end.

Definition last_message (messages : list Message) : Eff Call Message :=
  match last messages with
  | Some m => ret m
  | None => throw IndexError
  end.

(** ** src/nodes.py *)

Definition agent (c : Collaborators) (s : AgentState) : Eff Call AgentState :=
  let messages := messages s in
  do response <- invoke (AskAgent messages) (fun h => agent_model c h messages);
  ret {| messages := [response] |}.

Definition grade_documents (c : Collaborators) (s : AgentState) : Eff Call (option string) :=
  let messages := messages s in
  do last_message <- last_message messages;
  do m0 <- first_message messages;
  let question := content m0 in
  let docs := content last_message in
  do score <- invoke (AskGrader question docs) (fun h => grader c h question docs);
  if decide (score = "yes") then ret (Some "generate")
  else ret (Some "rewrite").

Definition nl : string := String "010"%char EmptyString.
Definition indent : string := "                ".

(** The f-string of the rewrite prompt. *)
Definition rewrite_prompt (question : string) : string :=
  nl +:+ indent +:+ "请分析输入内容并尝试理解其潜在的语义意图和含义。" +:+ nl +:+
  indent +:+ nl +:+
  indent +:+ "以下是原始问题:" +:+ nl +:+
  indent +:+ "-------" +:+ nl +:+
  indent +:+ question +:+ nl +:+
  indent +:+ "-------" +:+ nl +:+
  indent +:+ nl +:+
  indent +:+ "请重新表述一个改进的问题:" +:+ nl +:+
  indent.

Definition rewrite (c : Collaborators) (s : AgentState) : Eff Call AgentState :=
  let messages := messages s in
  do m0 <- first_message messages;
  let question := content m0 in
  let msg := [ {| content := rewrite_prompt question; tool_calls := [] |} ] in
  do response <- invoke (AskRewriter msg) (fun h => rewriter_model c h msg);
  ret {| messages := [response] |}.

(** The chain ends in StrOutputParser: the response is a plain string, which
    add_messages stores as a message with that text. *)
Definition generate (c : Collaborators) (s : AgentState) : Eff Call AgentState :=
  let messages := messages s in
  do m0 <- first_message messages;
  let question := content m0 in
  do last_message <- last_message messages;
  let docs := content last_message in
  do response <- invoke (AskRag docs question) (fun h => rag_chain c h docs question);
  ret {| messages := [ {| content := response; tool_calls := [] |} ] |}.

(** ** src/workflow.py *)

(** Modelled from the spec: the decision after agent (section 4.3), a
    prebuilt condition of the graph library: it inspects whether the latest
    message requests tool use and answers "tools" or END. *)
Definition tools_condition (s : AgentState) : Eff Call (option string) :=
  do m <- last_message (messages s);
  match tool_calls m with
  | [] => ret (Some END)
  | _ :: _ => ret (Some "tools")
  end.

Fixpoint call_tools (c : Collaborators) (queries : list string) : Eff Call (list Message) :=
  match queries with
  | [] => ret []
  | query :: rest =>
      do out <- invoke (AskTool query) (fun h => retriever_tool c h query);
      do outs <- call_tools c rest;
      ret ({| content := out; tool_calls := [] |} :: outs)
  end.

(** Modelled from the spec: the retrieve Step (section 4.3), a prebuilt tool
    node of the graph library over the one retriever tool of src/tools.py: it
    answers each tool call of the latest message with a message holding the
    tool's output. *)
Definition tool_node (c : Collaborators) (s : AgentState) : Eff Call AgentState :=
  do m <- last_message (messages s);
  do outs <- call_tools c (tool_calls m);
  ret {| messages := outs |}.

Definition build_workflow (c : Collaborators) : Graph Call AgentState AgentState :=
  {| nodes :=
       <["agent" := agent c]>
       (<["retrieve" := tool_node c]>
       (<["rewrite" := rewrite c]>
       (<["generate" := generate c]> ∅)));
     edges :=
       <[START := "agent"]>
       (<["generate" := END]>
       (<["rewrite" := "agent"]> ∅));
     branches :=
       <["agent" := (tools_condition,
                     Some (<["tools" := "retrieve"]> (<[END := END]> ∅)))]>
       (<["retrieve" := (grade_documents c, None)]> ∅) |}.

(** ** src/main.py *)

(** inputs = {"messages": [("user", question)]} *)
Definition inputs (question : string) : AgentState :=
  {| messages := [ {| content := question; tool_calls := [] |} ] |}.

Definition stream (c : Collaborators) (question : string) (n : nat) : Run Call AgentState AgentState :=
  run_for merge (build_workflow c) n (init (build_workflow c) (inputs question) []).

Definition fallback : string := "未能生成答案".

(** The loop of query over the streamed outputs: the first message of every
    "generate" output replaces final_answer. *)
Fixpoint collect_answer (outputs : list (string * AgentState)) (final_answer : option string)
    : Result (option string) :=
  match outputs with
  | [] => Ok final_answer
  | (key, value) :: rest =>
      if decide (key = "generate") then
        match messages value with
        | m :: _ => collect_answer rest (Some (content m))
        | [] => Raise IndexError
        end
      else collect_answer rest final_answer
  end.

(** return final_answer if final_answer else fallback *)
Definition query (c : Collaborators) (question : string) (n : nat) : option (Result string) :=
  let r := stream c question n in
  match status r with
  | Done =>
      Some (match collect_answer (trace r) None with
            | Ok (Some a) => Ok (if decide (a = EmptyString) then fallback else a)
            | Ok None => Ok fallback
            | Raise f => Raise f
            end)
  | Failed f => Some (Raise f)
  | Running _ => None
  end.

End Agentic.

(** * Definitions used to state the properties *)

(** The successive answers of the relevance grader while grade_documents
    walks over [ds], the first call being made after history [h]. *)
Fixpoint verdicts (c : Adaptive.Collaborators) (h : list Adaptive.Call) (q : string)
    (ds : list Adaptive.Document) : list string :=
  match ds with
  | [] => []
  | d :: rest =>
      Adaptive.retrieval_grader c h q (Adaptive.page_content d)
      :: verdicts c (h ++ [Adaptive.AskRelevance q (Adaptive.page_content d)]) q rest
  end.

(** The documents whose verdict is "yes", in their order. *)
Fixpoint survivors (ds : list Adaptive.Document) (vs : list string) : list Adaptive.Document :=
  match ds, vs with
  | d :: ds', v :: vs' =>
      if decide (v = "yes") then d :: survivors ds' vs' else survivors ds' vs'
  | _, _ => []
  end.

Definition grading_calls (q : string) (ds : list Adaptive.Document) : list Adaptive.Call :=
  map (fun d => Adaptive.AskRelevance q (Adaptive.page_content d)) ds.

(** No document survived grading: the list under "documents" is empty (or the
    key is missing, which state.get turns into the empty list). *)
Definition no_documents (s : Adaptive.GraphState) : Prop :=
  Adaptive.documents s = None \/ Adaptive.documents s = Some (Adaptive.DocList []).

(** Some document survived grading: the list under "documents" is not
    empty. *)
Definition some_documents (s : Adaptive.GraphState) : Prop :=
  exists d ds, Adaptive.documents s = Some (Adaptive.DocList (d :: ds)).

(** A call that fetches evidence. *)
Definition is_retrieval (call : Adaptive.Call) : bool :=
  match call with
  | Adaptive.AskRetriever _ | Adaptive.AskSearch _ => true
  | _ => false
  end.

(** The verdicts of the two graders consulted after generate: the
    groundedness grader first, the answer-quality grader on the history
    extended by that call. *)
Definition grounded (c : Adaptive.Collaborators) (h : list Adaptive.Call)
    (d : Adaptive.Docs) (g : string) : Prop :=
  Adaptive.hallucination_grader c h d g = "yes".

Definition addresses (c : Adaptive.Collaborators) (h : list Adaptive.Call)
    (q : string) (d : Adaptive.Docs) (g : string) : Prop :=
  Adaptive.answer_grader c (h ++ [Adaptive.AskHallucination d g]) q g = "yes".

(** The label of the two-stage decision after generate, the calls it makes
    and the node its label is mapped to. *)
Definition generation_label (c : Adaptive.Collaborators) (h : list Adaptive.Call)
    (q : string) (d : Adaptive.Docs) (g : string) : string :=
  if decide (Adaptive.hallucination_grader c h d g = "yes") then
    if decide (Adaptive.answer_grader c (h ++ [Adaptive.AskHallucination d g]) q g = "yes")
    then "useful" else "not useful"
  else "not supported".

Definition generation_calls (c : Adaptive.Collaborators) (h : list Adaptive.Call)
    (q : string) (d : Adaptive.Docs) (g : string) : list Adaptive.Call :=
  if decide (Adaptive.hallucination_grader c h d g = "yes")
  then [Adaptive.AskHallucination d g; Adaptive.AskAnswer q g]
  else [Adaptive.AskHallucination d g].

Definition generation_dest (label : string) : string :=
  if decide (label = "useful") then END
  else if decide (label = "not useful") then "transform_query"
  else "generate".

(** None of the calls fetches evidence. *)
Definition no_retrieval (calls : list Adaptive.Call) : Prop :=
  Forall (fun call => is_retrieval call = false) calls.

(** The shape of a run of the router-first graph that ended with an accepted
    generation: the last step is generate, its patch holds the generator's
    answer [g], the last three calls are the generator and the two graders,
    and the state holds [g]. *)
Definition ended_by_generate (c : Adaptive.Collaborators)
    (r : Run Adaptive.Call Adaptive.GraphState Adaptive.GraphState) : Prop :=
  exists t h d q,
    let g := Adaptive.rag_chain c h d q in
    trace r = t ++ [("generate", Adaptive.patch (Some d) (Some q) (Some g))]
    /\ log r = h ++ [Adaptive.AskGenerator d q; Adaptive.AskHallucination d g;
                    Adaptive.AskAnswer q g]
    /\ Adaptive.generation (state r) = Some g.

(** The answer held by the patch of the last generate step of a trace. *)
Definition last_generation (t : list (string * Adaptive.GraphState)) : option string :=
  match last_step_named "generate" t with
  | Some p => Adaptive.generation p
  | None => None
  end.

(** The claim about accepted runs, for one run of the router-first graph:
    the state holds a non-empty generation, the one of the last generate
    step. *)
Definition released_from_generate
    (r : Run Adaptive.Call Adaptive.GraphState Adaptive.GraphState) : Prop :=
  exists g, g <> EmptyString /\ Adaptive.generation (state r) = Some g
            /\ last_generation (trace r) = Some g.


(** The text that _format_results builds: the entries numbered from 1, in the
    order of the results, separated by an empty line. *)
Definition formatted (results : list (gmap string string)) : string :=
  String.concat (Adaptive.nl +:+ Adaptive.nl)
    (imap (fun i result => Adaptive.format_entry (S i) result) results).

(** The state record seen as the dict it is: state.get(key). *)
Inductive Value :=
| VStr (text : string)
| VDocs (docs : Adaptive.Docs)
| VInt (z : Z).

Definition field (s : Adaptive.GraphState) (key : string) : option Value :=
  if decide (key = "question") then VStr <$> Adaptive.question s
  else if decide (key = "generation") then VStr <$> Adaptive.generation s
  else if decide (key = "documents") then VDocs <$> Adaptive.documents s
  else if decide (key = "iterations") then VInt <$> Adaptive.iterations s
  else None.

(** The three path maps that build_graph passes to add_conditional_edges. *)
Definition paths_start : gmap string string :=
  <["web_search" := "web_search"]> (<["vectorstore" := "retrieve"]> ∅).
Definition paths_grade : gmap string string :=
  <["transform_query" := "transform_query"]> (<["generate" := "generate"]> ∅).
Definition paths_generate : gmap string string :=
  <["not supported" := "generate"]>
  (<["useful" := END]> (<["not useful" := "transform_query"]> ∅)).

(** ** Stub services for the examples *)

Definition doc (text : string) : Adaptive.Document :=
  {| Adaptive.page_content := text; Adaptive.metadata := ∅ |}.

(** Every service gives a fixed answer, whatever it is asked. *)
Definition fixed (route : string) (docs : list Adaptive.Document)
    (relevant draft grounded useful : string) : Adaptive.Collaborators :=
  {| Adaptive.question_router := fun _ _ => route;
     Adaptive.retriever := fun _ _ => docs;
     Adaptive.retrieval_grader := fun _ _ _ => relevant;
     Adaptive.rag_chain := fun _ _ _ => draft;
     Adaptive.hallucination_grader := fun _ _ _ => grounded;
     Adaptive.answer_grader := fun _ _ _ => useful;
     Adaptive.question_rewriter := fun _ q => "better " +:+ q;
     Adaptive.search_tool := fun _ _ =>
       [ <["content" := "rain"]> (<["url" := "http://w.example"]> ∅) ] |}.

(** The grader rejects the document "b" and accepts every other one. *)
Definition picky : Adaptive.Collaborators :=
  {| Adaptive.question_router := fun _ _ => "vectorstore";
     Adaptive.retriever := fun _ _ => [doc "a"; doc "b"; doc "c"; doc "d"];
     Adaptive.retrieval_grader := fun _ _ d => if decide (d = "b") then "no" else "yes";
     Adaptive.rag_chain := fun _ _ _ => "draft";
     Adaptive.hallucination_grader := fun _ _ _ => "yes";
     Adaptive.answer_grader := fun _ _ _ => "yes";
     Adaptive.question_rewriter := fun _ q => "better " +:+ q;
     Adaptive.search_tool := fun _ _ => [] |}.

Definition accepting : Adaptive.Collaborators :=
  fixed "vectorstore" [doc "a"; doc "b"] "yes" "draft" "yes" "yes".

Definition never_grounded : Adaptive.Collaborators :=
  fixed "vectorstore" [doc "a"] "yes" "draft" "no" "yes".

Definition never_relevant : Adaptive.Collaborators :=
  fixed "vectorstore" [doc "a"; doc "b"] "no" "draft" "yes" "yes".

Definition unknown_route : Adaptive.Collaborators :=
  fixed "database" [doc "a"] "yes" "draft" "yes" "yes".

Definition empty_draft : Adaptive.Collaborators :=
  fixed "vectorstore" [doc "a"] "yes" EmptyString "yes" "yes".

Definition via_web : Adaptive.Collaborators :=
  fixed "web_search" [] "yes" "draft" "yes" "yes".

Definition full_state (q : string) (d : Adaptive.Docs) (g : string) : Adaptive.GraphState :=
  {| Adaptive.question := Some q; Adaptive.generation := Some g;
     Adaptive.documents := Some d; Adaptive.iterations := None |}.

Definition at_node (node : string) (s : Adaptive.GraphState)
    : Run Adaptive.Call Adaptive.GraphState Adaptive.GraphState :=
  {| status := Running node; state := s; trace := []; log := [] |}.

(** ** The agent-first graph: statements and stubs *)

(** The answer held by the patch of the last generate step of a trace. *)
Definition agentic_last_answer (t : list (string * Agentic.AgentState)) : option string :=
  match last_step_named "generate" t with
  | Some p => Agentic.content <$> head (Agentic.messages p)
  | None => None
  end.

(** The claim about accepted runs, for one run of the agent-first graph: the
    transcript ends with a non-empty answer, the one of the last generate
    step. *)
Definition agentic_released_from_generate
    (r : Run Agentic.Call Agentic.AgentState Agentic.AgentState) : Prop :=
  exists g, g <> EmptyString
            /\ Agentic.content <$> last (Agentic.messages (state r)) = Some g
            /\ agentic_last_answer (trace r) = Some g.

Definition plain (text : string) : Agentic.Message :=
  {| Agentic.content := text; Agentic.tool_calls := [] |}.

(** The agent answers at once, without asking for the retriever tool. *)
Definition direct : Agentic.Collaborators :=
  {| Agentic.agent_model := fun _ _ => plain "hello";
     Agentic.retriever_tool := fun _ _ => "docs";
     Agentic.grader := fun _ _ _ => "yes";
     Agentic.rewriter_model := fun _ _ => plain "better";
     Agentic.rag_chain := fun _ _ _ => "answer" |}.

(** The agent always asks for the tool; the grader accepts iff [grade] is
    "yes". *)
Definition searching (grade : string) : Agentic.Collaborators :=
  {| Agentic.agent_model := fun _ _ =>
       {| Agentic.content := EmptyString; Agentic.tool_calls := ["memory"] |};
     Agentic.retriever_tool := fun _ _ => "docs";
     Agentic.grader := fun _ _ _ => grade;
     Agentic.rewriter_model := fun _ _ => plain "better";
     Agentic.rag_chain := fun _ _ _ => "answer" |}.

(** The call, if it is one of grading, rewriting or generating, is about the
    question [q]. *)
Definition asks_about (q : string) (call : Agentic.Call) : Prop :=
  match call with
  | Agentic.AskGrader q' _ => q' = q
  | Agentic.AskRewriter msg => msg = [plain (Agentic.rewrite_prompt q)]
  | Agentic.AskRag _ q' => q' = q
  | Agentic.AskAgent _ | Agentic.AskTool _ => True
  end.

(** The transcript still starts with the user's question and every grading,
    rewriting or generating call made so far was about it. *)
Definition question_kept (q : string) (s : Agentic.AgentState) (h : list Agentic.Call) : Prop :=
  head (Agentic.messages s) = Some (plain q) /\ Forall (asks_about q) h.

(** The message by which the stub agent asks for the retriever tool. *)
Definition asking : Agentic.Message :=
  {| Agentic.content := EmptyString; Agentic.tool_calls := ["memory"] |}.

(** Where a run of the agent-first graph with the stubs [searching "no"] can
    be: about to run agent, about to run retrieve on a transcript that ends
    with the agent's tool request, or about to run rewrite. *)
Definition in_rewrite_cycle
    (r : Run Agentic.Call Agentic.AgentState Agentic.AgentState) : Prop :=
  status r = Running "agent"
  \/ (status r = Running "retrieve"
      /\ exists ms, Agentic.messages (state r) = ms ++ [asking])
  \/ status r = Running "rewrite".

(** ** The steps of the router-first graph, as a relation *)

(** [transition s node p calls st]: in state [s] the node [node] may return
    the patch [p] after the calls [calls], the run going on in status [st].
    One rule per node of build_graph and per outcome of the decision that
    follows it. *)
Inductive transition (s : Adaptive.GraphState)
    : string -> Adaptive.GraphState -> list Adaptive.Call -> Status -> Prop :=
| t_web_search q d :
    Adaptive.question s = Some q ->
    transition s "web_search"
      (Adaptive.patch (Some (Adaptive.DocOne d)) (Some q) None)
      [Adaptive.AskSearch q] (Running "generate")
| t_retrieve q ds :
    Adaptive.question s = Some q ->
    transition s "retrieve"
      (Adaptive.patch (Some (Adaptive.DocList ds)) (Some q) None)
      [Adaptive.AskRetriever q] (Running "grade_documents")
| t_grade_none q ds :
    Adaptive.question s = Some q ->
    Adaptive.documents s = Some (Adaptive.DocList ds) ->
    transition s "grade_documents"
      (Adaptive.patch (Some (Adaptive.DocList [])) (Some q) None)
      (grading_calls q ds) (Running "transform_query")
| t_grade_some q ds k ks :
    Adaptive.question s = Some q ->
    Adaptive.documents s = Some (Adaptive.DocList ds) ->
    sublist (k :: ks) ds ->
    transition s "grade_documents"
      (Adaptive.patch (Some (Adaptive.DocList (k :: ks))) (Some q) None)
      (grading_calls q ds) (Running "generate")
| t_transform_query q d q' :
    Adaptive.question s = Some q ->
    Adaptive.documents s = Some d ->
    transition s "transform_query"
      (Adaptive.patch (Some d) (Some q') None)
      [Adaptive.AskRewriter q] (Running "retrieve")
| t_regenerate q d g :
    Adaptive.question s = Some q ->
    Adaptive.documents s = Some d ->
    transition s "generate"
      (Adaptive.patch (Some d) (Some q) (Some g))
      [Adaptive.AskGenerator d q; Adaptive.AskHallucination d g]
      (Running "generate")
| t_not_useful q d g :
    Adaptive.question s = Some q ->
    Adaptive.documents s = Some d ->
    transition s "generate"
      (Adaptive.patch (Some d) (Some q) (Some g))
      [Adaptive.AskGenerator d q; Adaptive.AskHallucination d g; Adaptive.AskAnswer q g]
      (Running "transform_query")
| t_useful q d g :
    Adaptive.question s = Some q ->
    Adaptive.documents s = Some d ->
    transition s "generate"
      (Adaptive.patch (Some d) (Some q) (Some g))
      [Adaptive.AskGenerator d q; Adaptive.AskHallucination d g; Adaptive.AskAnswer q g]
      Done.

(** What the node about to run needs of the state, given how the graph can
    reach it. *)
Definition node_ready (node : string) (s : Adaptive.GraphState)
    (t : list (string * Adaptive.GraphState)) : Prop :=
  (node = "web_search" /\ t = [])
  \/ node = "retrieve"
  \/ (node = "grade_documents" /\ exists ds, Adaptive.documents s = Some (Adaptive.DocList ds))
  \/ (node = "generate"
      /\ exists d, Adaptive.documents s = Some d /\ Adaptive.truthy d = true)
  \/ (node = "transform_query" /\ exists d, Adaptive.documents s = Some d).

(** A run of the router-first graph in good order: the question is present,
    nobody has written "iterations", the node about to run finds the keys it
    reads, and the only failure is the undeclared route out of START. *)
Definition sound (r : Run Adaptive.Call Adaptive.GraphState Adaptive.GraphState) : Prop :=
  Adaptive.iterations (state r) = None
  /\ (exists q, Adaptive.question (state r) = Some q)
  /\ match status r with
     | Running node => node_ready node (state r) (trace r)
     | Done => True
     | Failed f => f = ConfigurationFault START None /\ trace r = []
     end.

(** A call to the generator carries documents that count as present: a
    non-empty list or a single Document. *)
Definition generator_fed (call : Adaptive.Call) : Prop :=
  match call with
  | Adaptive.AskGenerator d _ => Adaptive.truthy d = true
  | _ => True
  end.

(** The pairs (node, next node) that the edges of build_graph allow. *)
Definition follows (a b : string) : Prop :=
  In (a, b)
    [("web_search", "generate"); ("retrieve", "grade_documents");
     ("grade_documents", "transform_query"); ("grade_documents", "generate");
     ("transform_query", "retrieve");
     ("generate", "generate"); ("generate", "transform_query")].

(** Each name of the list is followed by a name the edges allow. *)
Fixpoint chained (names : list string) : Prop :=
  match names with
  | a :: rest =>
      match rest with
      | b :: _ => follows a b /\ chained rest
      | [] => True
      end
  | [] => True
  end.

(** The output of a step holds a list under "documents". *)
Definition stores_list (e : string * Adaptive.GraphState) : Prop :=
  exists ds, Adaptive.documents e.2 = Some (Adaptive.DocList ds).

(** The patch of a step other than generate holds no generation, and every
    patch holds a question. *)
Definition patch_in_order (e : string * Adaptive.GraphState) : Prop :=
  (e.1 <> "generate" -> Adaptive.generation e.2 = None)
  /\ Adaptive.question e.2 <> None.

(** ** The steps of the agent-first graph, as a relation *)

(** [agentic_transition node patch st]: the node [node] may return the
    messages [patch], the run going on in status [st]. *)
Inductive agentic_transition : string -> list Agentic.Message -> Status -> Prop :=
| a_agent_tools response :
    Agentic.tool_calls response <> [] ->
    agentic_transition "agent" [response] (Running "retrieve")
| a_agent_end response :
    Agentic.tool_calls response = [] ->
    agentic_transition "agent" [response] Done
| a_retrieve_generate outs :
    agentic_transition "retrieve" outs (Running "generate")
| a_retrieve_rewrite outs :
    agentic_transition "retrieve" outs (Running "rewrite")
| a_rewrite response :
    agentic_transition "rewrite" [response] (Running "agent")
| a_generate answer :
    agentic_transition "generate" [plain answer] Done.

(** A run of the agent-first graph in good order: the transcript is not
    empty, the node about to run is one of the four nodes, nothing has
    failed. *)
Definition agentic_sound
    (r : Run Agentic.Call Agentic.AgentState Agentic.AgentState) : Prop :=
  Agentic.messages (state r) <> []
  /\ match status r with
     | Running node => In node ["agent"; "retrieve"; "rewrite"; "generate"]
     | Done => True
     | Failed _ => False
     end.

Definition no_generate (t : list (string * Agentic.AgentState)) : Prop :=
  Forall (fun e => e.1 <> "generate") t.

(** How a run of the agent-first graph can have ended: by a plain answer of
    the agent or by a generation, no generation having taken place before. *)
Definition ended_by_agent (t : list (string * Agentic.AgentState)) : Prop :=
  exists t' response,
    t = t' ++ [("agent", {| Agentic.messages := [response] |})]
    /\ Agentic.tool_calls response = [] /\ no_generate t'.

Definition ended_by_generation (t : list (string * Agentic.AgentState)) (answer : string)
    : Prop :=
  exists t',
    t = t' ++ [("generate", {| Agentic.messages := [plain answer] |})]
    /\ no_generate t'.

Definition agentic_trace_shape
    (r : Run Agentic.Call Agentic.AgentState Agentic.AgentState) : Prop :=
  match status r with
  | Done => ended_by_agent (trace r) \/ exists answer, ended_by_generation (trace r) answer
  | _ => no_generate (trace r)
  end.

(** * Indexing: the vector store managers and the tool registry *)

(** A call that returns or raises ValueError with a message. *)
Inductive Outcome (A : Type) :=
| Returned (a : A)
| ValueError (message : string).
Arguments Returned {A} a.
Arguments ValueError {A} message.

(** The libraries behind the managers: page loader, text splitter, vector
    store, retriever and retriever tool. *)
Record Backend (Doc Store Retriever Tool : Type) := {
  load : string -> list Doc;
  split_text : list Doc -> list Doc;
  from_documents : list Doc -> Store;
  as_retriever : Store -> Retriever;
  get_relevant_documents : Retriever -> string -> list Doc;
  similarity_search : Store -> string -> nat -> list Doc;
  create_tool : Retriever -> Tool
}.
Arguments load {Doc Store Retriever Tool} b url.
Arguments split_text {Doc Store Retriever Tool} b documents.
Arguments from_documents {Doc Store Retriever Tool} b documents.
Arguments as_retriever {Doc Store Retriever Tool} b store.
Arguments get_relevant_documents {Doc Store Retriever Tool} b retriever query.
Arguments similarity_search {Doc Store Retriever Tool} b store query k.
Arguments create_tool {Doc Store Retriever Tool} b retriever.

(** ** proj2: src/vector_store.py and src/tools.py *)

Module AgenticIndex.

(** The attributes of the two module-level singletons vector_store_manager
    and tools_manager. *)
Record Managers (Store Retriever Tool : Type) := {
  vectorstore : option Store;
  retriever : option Retriever;
  retriever_tool : option Tool;
  tools : list Tool
}.
Arguments vectorstore {Store Retriever Tool} m.
Arguments retriever {Store Retriever Tool} m.
Arguments retriever_tool {Store Retriever Tool} m.
Arguments tools {Store Retriever Tool} m.

Section Operations.
Context {Doc Store Retriever Tool : Type}.
Variable b : Backend Doc Store Retriever Tool.

(** config.BLOG_URLS *)
Definition BLOG_URLS : list string :=
  ["https://lilianweng.github.io/posts/2023-06-23-agent/";
   "https://lilianweng.github.io/posts/2023-03-15-prompt-engineering/";
   "https://lilianweng.github.io/posts/2023-10-25-adv-attack-llm/"].

(** The loop of load_documents: docs.extend(loader.load()) per URL. *)
Fixpoint load_loop (urls : list string) (docs : list Doc) : list Doc :=
  match urls with
  | [] => docs
  | url :: rest => load_loop rest (docs ++ load b url)
  end.

Definition load_documents (urls : option (list string)) : list Doc :=
  let urls := default BLOG_URLS urls in
  load_loop urls [].

Definition split_documents (documents : list Doc) : list Doc := split_text b documents.

Definition create_vectorstore (documents : list Doc) (m : Managers Store Retriever Tool)
    : Store * Managers Store Retriever Tool :=
  let store := from_documents b documents in
  (store, {| vectorstore := Some store; retriever := retriever m;
             retriever_tool := retriever_tool m; tools := tools m |}).

Definition get_retriever (m : Managers Store Retriever Tool)
    : Outcome Retriever * Managers Store Retriever Tool :=
  match vectorstore m with
  | None => (ValueError "向量存储尚未创建，请先调用 create_vectorstore()", m)
  | Some store =>
      match retriever m with
      | None =>
          let r := as_retriever b store in
          (Returned r, {| vectorstore := vectorstore m; retriever := Some r;
                          retriever_tool := retriever_tool m; tools := tools m |})
      | Some r => (Returned r, m)
      end
  end.

Definition initialize (m : Managers Store Retriever Tool)
    : Outcome unit * Managers Store Retriever Tool :=
  let documents := load_documents None in
  let doc_splits := split_documents documents in
  let (_, m1) := create_vectorstore doc_splits m in
  match get_retriever m1 with
  | (Returned _, m2) => (Returned tt, m2)
  | (ValueError e, m2) => (ValueError e, m2)
  end.

(** The parameter k is not used. *)
Definition search (query : string) (k : nat) (m : Managers Store Retriever Tool)
    : Outcome (list Doc) :=
  match retriever m with
  | None => ValueError "检索器尚未创建，请先调用 initialize()"
  | Some r => Returned (get_relevant_documents b r query)
  end.

(** ToolsManager.create_retriever_tool *)
Definition create_retriever_tool (m : Managers Store Retriever Tool)
    : Outcome Tool * Managers Store Retriever Tool :=
  match retriever m with
  | None => (ValueError "检索器尚未初始化，请先调用 vector_store_manager.initialize()", m)
  | Some r =>
      let tool := create_tool b r in
      (Returned tool, {| vectorstore := vectorstore m; retriever := retriever m;
                         retriever_tool := Some tool; tools := tools m |})
  end.

(** ToolsManager.get_tools: the list is built when it is still empty. *)
Definition get_tools (m : Managers Store Retriever Tool)
    : Outcome (list Tool) * Managers Store Retriever Tool :=
  match tools m with
  | [] =>
      match create_retriever_tool m with
      | (Returned tool, m1) =>
          (Returned [tool], {| vectorstore := vectorstore m1; retriever := retriever m1;
                               retriever_tool := retriever_tool m1; tools := [tool] |})
      | (ValueError e, m1) => (ValueError e, m1)
      end
  | _ :: _ => (Returned (tools m), m)
  end.

(** The calls a client can make, and the managers after each. *)
Inductive Op :=
| OpCreate (documents : list Doc)
| OpGetRetriever
| OpInitialize
| OpSearch (query : string) (k : nat)
| OpCreateTool
| OpGetTools.

Definition exec (op : Op) (m : Managers Store Retriever Tool) : Managers Store Retriever Tool :=
  match op with
  | OpCreate documents => snd (create_vectorstore documents m)
  | OpGetRetriever => snd (get_retriever m)
  | OpInitialize => snd (initialize m)
  | OpSearch _ _ => m
  | OpCreateTool => snd (create_retriever_tool m)
  | OpGetTools => snd (get_tools m)
  end.

End Operations.

(** The managers as the modules create them. *)
Definition fresh {Store Retriever Tool : Type} : Managers Store Retriever Tool :=
  {| vectorstore := None; retriever := None; retriever_tool := None; tools := [] |}.

End AgenticIndex.

(** ** proj1: retriever.py *)

Module AdaptiveIndex.

Record VectorStoreManager (Store Retriever : Type) := {
  vectorstore : option Store;
  retriever : option Retriever
}.
Arguments vectorstore {Store Retriever} _.
Arguments retriever {Store Retriever} _.

Section Operations.
Context {Doc Store Retriever Tool : Type}.
Variable b : Backend Doc Store Retriever Tool.

(** docs = [load(url) for url in urls], then the nested comprehension that
    flattens it. *)
Definition load_documents_from_urls (urls : list string) : list Doc :=
  let docs := map (load b) urls in
  concat docs.

Definition split_documents (documents : list Doc) : list Doc := split_text b documents.

Definition create_vectorstore (documents : list Doc) (m : VectorStoreManager Store Retriever)
    : Store * VectorStoreManager Store Retriever :=
  let store := from_documents b documents in
  (store, {| vectorstore := Some store; retriever := Some (as_retriever b store) |}).

Definition setup_from_urls (urls : list string) (m : VectorStoreManager Store Retriever)
    : VectorStoreManager Store Retriever :=
  let documents := load_documents_from_urls urls in
  let doc_splits := split_documents documents in
  snd (create_vectorstore doc_splits m).

(** Returns None (after a warning) when nothing was created. *)
Definition get_retriever (m : VectorStoreManager Store Retriever) : option Retriever :=
  retriever m.

Definition search (query : string) (k : nat) (m : VectorStoreManager Store Retriever)
    : Outcome (list Doc) :=
  match vectorstore m with
  | None => ValueError "向量存储尚未初始化"
  | Some store => Returned (similarity_search b store query k)
  end.

Inductive Op :=
| OpCreate (documents : list Doc)
| OpSetup (urls : list string).

Definition exec (op : Op) (m : VectorStoreManager Store Retriever)
    : VectorStoreManager Store Retriever :=
  match op with
  | OpCreate documents => snd (create_vectorstore documents m)
  | OpSetup urls => setup_from_urls urls m
  end.

End Operations.

Definition fresh {Store Retriever : Type} : VectorStoreManager Store Retriever :=
  {| vectorstore := None; retriever := None |}.

End AdaptiveIndex.

(** A backend over lists of strings for the examples: a store is the list it
    was built from, a retriever and a tool are the store they serve. *)
Definition toy_backend : Backend string (list string) (list string) (list string) :=
  {| load := fun url => [url];
     split_text := fun documents => documents;
     from_documents := fun documents => documents;
     as_retriever := fun store => store;
     get_relevant_documents := fun retriever _ => retriever;
     similarity_search := fun store _ k => take k store;
     create_tool := fun retriever => retriever |}.

(** The managers after a sequence of calls. *)
Definition agentic_ops {Doc Store Retriever Tool : Type}
    (b : Backend Doc Store Retriever Tool) (ops : list (@AgenticIndex.Op Doc))
    (m : AgenticIndex.Managers Store Retriever Tool)
    : AgenticIndex.Managers Store Retriever Tool :=
  fold_left (fun m op => AgenticIndex.exec b op m) ops m.

Definition adaptive_ops {Doc Store Retriever Tool : Type}
    (b : Backend Doc Store Retriever Tool) (ops : list (@AdaptiveIndex.Op Doc))
    (m : AdaptiveIndex.VectorStoreManager Store Retriever)
    : AdaptiveIndex.VectorStoreManager Store Retriever :=
  fold_left (fun m op => AdaptiveIndex.exec b op m) ops m.

(** * Properties *)

(** ** The monad and the execution loop *)

Section EngineFacts.
Context {H State Patch : Type}.
Variable merge : State -> Patch -> State.
Variable g : Graph H State Patch.

Lemma run_for_unfold n r : run_for merge g (S n) r = run_for merge g n (step merge g r).
Proof. reflexivity. Qed.

Lemma run_for_succ n r : run_for merge g (S n) r = step merge g (run_for merge g n r).
Proof.
  revert r. induction n as [|n IH]; intros r; [reflexivity|].
  change (run_for merge g (S (S n)) r) with (run_for merge g (S n) (step merge g r)).
  rewrite IH. reflexivity.
Qed.

Lemma run_for_add n m r :
  run_for merge g (n + m) r = run_for merge g m (run_for merge g n r).
Proof.
  revert r. induction n as [|n IH]; intros r; simpl; [reflexivity|apply IH].
Qed.

Lemma step_done r : status r = Done -> step merge g r = r.
Proof. intros E. unfold step. rewrite E. reflexivity. Qed.

Lemma run_for_done n r : status r = Done -> run_for merge g n r = r.
Proof.
  induction n as [|n IH]; intros E; simpl; [reflexivity|].
  rewrite step_done by exact E. apply IH, E.
Qed.

Lemma step_failed r f : status r = Failed f -> step merge g r = r.
Proof. intros E. unfold step. rewrite E. reflexivity. Qed.

Lemma run_for_failed n r f : status r = Failed f -> run_for merge g n r = r.
Proof.
  induction n as [|n IH]; intros E; simpl; [reflexivity|].
  rewrite (step_failed r f E). apply IH, E.
Qed.

Lemma status_at_done dest : @status_at dest = Done -> dest = END.
Proof. unfold status_at. destruct (decide (dest = END)); [trivial|discriminate]. Qed.

(** A label that the path map does not declare stops the run at once. *)
Lemma advance_undeclared node (router : State -> Eff H (option string)) pm s h label h' :
  branches g !! node = Some (router, Some pm) ->
  router s h = (Ok label, h') ->
  (forall l, label = Some l -> pm !! l = None) ->
  advance g node s h = (Raise (ConfigurationFault node label), h').
Proof.
  intros Hb Hr Hl. unfold advance, bind. rewrite Hb, Hr.
  destruct label as [l|]; [|reflexivity].
  rewrite (Hl l eq_refl). reflexivity.
Qed.

Lemma advance_declared node (router : State -> Eff H (option string)) pm s h l dest h' :
  branches g !! node = Some (router, Some pm) ->
  router s h = (Ok (Some l), h') ->
  pm !! l = Some dest ->
  advance g node s h = (Ok dest, h').
Proof.
  intros Hb Hr Hl. unfold advance, bind. rewrite Hb, Hr, Hl. reflexivity.
Qed.

Lemma advance_edge node dest s h :
  branches g !! node = None ->
  edges g !! node = Some dest ->
  advance g node s h = (Ok dest, h).
Proof. intros Hb He. unfold advance. rewrite Hb, He. reflexivity. Qed.

(** One iteration at a node that returns a patch and has a successor. *)
Lemma step_running r node (f : State -> Eff H Patch) p h dest h' :
  status r = Running node ->
  nodes g !! node = Some f ->
  f (state r) (log r) = (Ok p, h) ->
  advance g node (merge (state r) p) h = (Ok dest, h') ->
  step merge g r =
    {| status := status_at dest; state := merge (state r) p;
       trace := trace r ++ [(node, p)]; log := h' |}.
Proof.
  intros Hs Hn Hf Ha. unfold step. rewrite Hs, Hn, Hf, Ha. reflexivity.
Qed.

End EngineFacts.

(** ** The router-first graph: its table *)

Section AdaptiveTable.
Import Adaptive.
Variable c : Collaborators.

Lemma branch_start :
  branches (build_graph c) !! START = Some (route_question c, Some paths_start).
Proof. reflexivity. Qed.

Lemma branch_grade :
  branches (build_graph c) !! "grade_documents" = Some (decide_to_generate, Some paths_grade).
Proof. reflexivity. Qed.

Lemma branch_generate :
  branches (build_graph c) !! "generate"
  = Some (grade_generation_v_documents_and_question c, Some paths_generate).
Proof. reflexivity. Qed.

Lemma node_generate : nodes (build_graph c) !! "generate" = Some (generate c).
Proof. reflexivity. Qed.

Lemma node_retrieve : nodes (build_graph c) !! "retrieve" = Some (retrieve c).
Proof. reflexivity. Qed.

Lemma node_grade : nodes (build_graph c) !! "grade_documents" = Some (grade_documents c).
Proof. reflexivity. Qed.

Lemma node_transform : nodes (build_graph c) !! "transform_query" = Some (transform_query c).
Proof. reflexivity. Qed.

Lemma node_web : nodes (build_graph c) !! "web_search" = Some (web_search c).
Proof. reflexivity. Qed.

End AdaptiveTable.

(** ** Merging a patch *)

(** C5.  Merging a patch overwrites exactly the fields the patch names:
    under every key the merged record holds the patch's value if the patch
    names the key and the stored value otherwise; the documents are never a
    mixture of the two lists; messages are appended; and a patch holding only
    documents D' turns {question Q, documents D, generation G} into
    {question Q, documents D', generation G}. *)
Theorem C5_merge_law (s p : Adaptive.GraphState) (key : string)
    (a b : Agentic.AgentState) (Q G : string) (D D' : Adaptive.Docs) :
  field (Adaptive.merge s p) key
    = match field p key with Some v => Some v | None => field s key end
  /\ (Adaptive.documents (Adaptive.merge s p) = Adaptive.documents p
      \/ Adaptive.documents (Adaptive.merge s p) = Adaptive.documents s)
  /\ Agentic.messages (Agentic.merge a b) = Agentic.messages a ++ Agentic.messages b
  /\ Adaptive.merge (full_state Q D G) (Adaptive.patch (Some D') None None)
    = full_state Q D' G.
Proof.
  split; [|split; [|split; reflexivity]].
  - unfold field, Adaptive.merge. cbn.
    repeat case_decide; try reflexivity.
    + destruct (Adaptive.question p); reflexivity.
    + destruct (Adaptive.generation p); reflexivity.
    + destruct (Adaptive.documents p); reflexivity.
    + destruct (Adaptive.iterations p); reflexivity.
  - unfold Adaptive.merge. cbn. destruct (Adaptive.documents p); [left|right]; reflexivity.
Qed.

(** ** graph_nodes.py: grading the documents *)

Section Grading.
Import Adaptive.
Variable c : Collaborators.

Lemma grade_loop_spec q ds : forall acc h,
  grade_loop c q ds acc h
  = (Ok (acc ++ survivors ds (verdicts c h q ds)), h ++ grading_calls q ds).
Proof.
  induction ds as [|d rest IH]; intros acc h; simpl.
  - unfold ret. rewrite !app_nil_r. reflexivity.
  - unfold bind, invoke.
    destruct (decide (retrieval_grader c h q (page_content d) = "yes")) as [Y|N].
    + rewrite IH. rewrite <- !app_assoc. reflexivity.
    + rewrite IH. rewrite <- !app_assoc. reflexivity.
Qed.

Lemma verdicts_length q ds : forall h, length (verdicts c h q ds) = length ds.
Proof. induction ds as [|d rest IH]; intros h; simpl; [reflexivity|]. rewrite IH. reflexivity. Qed.

Lemma survivors_sublist ds : forall vs, sublist (survivors ds vs) ds.
Proof.
  induction ds as [|d rest IH]; intros vs; simpl.
  - constructor.
  - destruct vs as [|v vs']; [apply sublist_nil_l|].
    destruct (decide (v = "yes")); [apply sublist_skip|apply sublist_cons]; apply IH.
Qed.

Lemma survivors_none ds : forall vs,
  Forall (fun v => v <> "yes") vs -> survivors ds vs = [].
Proof.
  induction ds as [|d rest IH]; intros vs Hvs; simpl; [reflexivity|].
  destruct vs as [|v vs']; [reflexivity|].
  inversion Hvs as [|? ? Hv Hrest]; subst.
  destruct (decide (v = "yes")); [contradiction|]. apply IH, Hrest.
Qed.

Lemma grade_documents_list s h q ds :
  question s = Some q ->
  documents s = Some (DocList ds) ->
  grade_documents c s h
  = (Ok (patch (Some (DocList (survivors ds (verdicts c h q ds)))) (Some q) None),
     h ++ grading_calls q ds).
Proof.
  intros Hq Hd. unfold grade_documents, bind, item. rewrite Hq, Hd. unfold ret at 1 2.
  rewrite grade_loop_spec. reflexivity.
Qed.

End Grading.

(** C6.  On a state with a question and a list of documents, the grading
    step asks the relevance grader once per document, in order, and returns a
    patch whose documents are exactly the documents graded "yes" -- unmodified
    and in their original order, a sublist of the input; merging the patch
    replaces the documents field by that list. *)
Theorem C6_grade_documents_filters (c : Adaptive.Collaborators) (s : Adaptive.GraphState)
    (h : list Adaptive.Call) (q : string) (ds : list Adaptive.Document) :
  Adaptive.question s = Some q ->
  Adaptive.documents s = Some (Adaptive.DocList ds) ->
  let vs := verdicts c h q ds in
  let kept := survivors ds vs in
  exists p,
    Adaptive.grade_documents c s h = (Ok p, h ++ grading_calls q ds)
    /\ length (grading_calls q ds) = length ds
    /\ length vs = length ds
    /\ Adaptive.documents p = Some (Adaptive.DocList kept)
    /\ Adaptive.documents (Adaptive.merge s p) = Some (Adaptive.DocList kept)
    /\ sublist kept ds.
Proof.
  intros Hq Hd vs kept. eexists. split; [apply grade_documents_list; eassumption|].
  repeat split.
  - unfold grading_calls. apply length_map.
  - apply verdicts_length.
  - apply survivors_sublist.
Qed.

Lemma C6_witness :
  let ds := [doc "a"; doc "b"; doc "c"; doc "d"] in
  let s := full_state "q" (Adaptive.DocList ds) "g" in
  exists p,
    Adaptive.grade_documents picky s [] = (Ok p, [] ++ grading_calls "q" ds)
    /\ length (grading_calls "q" ds) = 4
    /\ length (verdicts picky [] "q" ds) = 4
    /\ Adaptive.documents p = Some (Adaptive.DocList [doc "a"; doc "c"; doc "d"])
    /\ Adaptive.documents (Adaptive.merge s p)
       = Some (Adaptive.DocList [doc "a"; doc "c"; doc "d"])
    /\ sublist [doc "a"; doc "c"; doc "d"] ds.
Proof.
  exact (C6_grade_documents_filters picky
           (full_state "q" (Adaptive.DocList [doc "a"; doc "b"; doc "c"; doc "d"]) "g")
           [] "q" [doc "a"; doc "b"; doc "c"; doc "d"] eq_refl eq_refl).
Defined.

(** ** graph_edges.py and the table: where a step leads *)

Section AdaptiveSteps.
Import Adaptive.
Variable c : Collaborators.

Lemma decide_to_generate_label s h ds :
  documents s = Some (DocList ds) ->
  decide_to_generate s h
  = (Ok (Some (if negb (truthy (DocList ds)) then "transform_query" else "generate")), h).
Proof.
  intros Hd. unfold decide_to_generate. rewrite Hd.
  destruct ds; reflexivity.
Qed.

Lemma advance_grade s h ds :
  documents s = Some (DocList ds) ->
  advance (build_graph c) "grade_documents" s h
  = (Ok (if negb (truthy (DocList ds)) then "transform_query" else "generate"), h).
Proof.
  intros Hd.
  eapply advance_declared;
    [apply branch_grade|apply decide_to_generate_label; exact Hd|].
  destruct (negb (truthy (DocList ds))); reflexivity.
Qed.

Lemma grade_generation_label s h q d g :
  question s = Some q -> documents s = Some d -> generation s = Some g ->
  grade_generation_v_documents_and_question c s h
  = (Ok (Some (generation_label c h q d g)), h ++ generation_calls c h q d g).
Proof.
  intros Hq Hd Hg.
  unfold grade_generation_v_documents_and_question, generation_label, generation_calls,
    bind, item, invoke.
  rewrite Hq, Hd, Hg. unfold ret at 1 2 3.
  destruct (decide (hallucination_grader c h d g = "yes")); [|reflexivity].
  destruct (decide (answer_grader c (h ++ [AskHallucination d g]) q g = "yes"));
    unfold ret; rewrite <- app_assoc; reflexivity.
Qed.

Lemma advance_generate s h q d g :
  question s = Some q -> documents s = Some d -> generation s = Some g ->
  advance (build_graph c) "generate" s h
  = (Ok (generation_dest (generation_label c h q d g)), h ++ generation_calls c h q d g).
Proof.
  intros Hq Hd Hg.
  eapply advance_declared;
    [apply branch_generate|apply grade_generation_label; eassumption|].
  unfold generation_label.
  destruct (decide (hallucination_grader c h d g = "yes")); [|reflexivity].
  destruct (decide (answer_grader c (h ++ [AskHallucination d g]) q g = "yes"));
    reflexivity.
Qed.

Lemma step_retrieve (r : Run Call GraphState GraphState) q :
  status r = Running "retrieve" ->
  question (state r) = Some q ->
  let p := patch (Some (DocList (retriever c (log r) q))) (Some q) None in
  step merge (build_graph c) r
  = {| status := Running "grade_documents"; state := merge (state r) p;
       trace := trace r ++ [("retrieve", p)]; log := log r ++ [AskRetriever q] |}.
Proof.
  intros Hs Hq p.
  etransitivity; [eapply step_running;
    [exact Hs|apply node_retrieve| |apply advance_edge; reflexivity]|reflexivity].
  unfold retrieve, bind, item, invoke. rewrite Hq. reflexivity.
Qed.

Lemma step_grade (r : Run Call GraphState GraphState) q ds :
  status r = Running "grade_documents" ->
  question (state r) = Some q ->
  documents (state r) = Some (DocList ds) ->
  let kept := survivors ds (verdicts c (log r) q ds) in
  let p := patch (Some (DocList kept)) (Some q) None in
  step merge (build_graph c) r
  = {| status := Running (if negb (truthy (DocList kept)) then "transform_query"
                          else "generate");
       state := merge (state r) p;
       trace := trace r ++ [("grade_documents", p)];
       log := log r ++ grading_calls q ds |}.
Proof.
  intros Hs Hq Hd kept p.
  etransitivity; [eapply step_running;
    [exact Hs|apply node_grade|apply grade_documents_list; eassumption
    |apply (advance_grade _ _ kept); reflexivity]|].
  fold kept. destruct kept; reflexivity.
Qed.

Lemma step_transform (r : Run Call GraphState GraphState) q d :
  status r = Running "transform_query" ->
  question (state r) = Some q ->
  documents (state r) = Some d ->
  let p := patch (Some d) (Some (question_rewriter c (log r) q)) None in
  step merge (build_graph c) r
  = {| status := Running "retrieve"; state := merge (state r) p;
       trace := trace r ++ [("transform_query", p)]; log := log r ++ [AskRewriter q] |}.
Proof.
  intros Hs Hq Hd p.
  etransitivity; [eapply step_running;
    [exact Hs|apply node_transform| |apply advance_edge; reflexivity]|reflexivity].
  unfold transform_query, bind, item, invoke. rewrite Hq, Hd. reflexivity.
Qed.

Lemma step_web (r : Run Call GraphState GraphState) q :
  status r = Running "web_search" ->
  question (state r) = Some q ->
  let d := {| page_content := _format_results (search_tool c (log r) q); metadata := ∅ |} in
  let p := patch (Some (DocOne d)) (Some q) None in
  step merge (build_graph c) r
  = {| status := Running "generate"; state := merge (state r) p;
       trace := trace r ++ [("web_search", p)]; log := log r ++ [AskSearch q] |}.
Proof.
  intros Hs Hq d p.
  etransitivity; [eapply step_running;
    [exact Hs|apply node_web| |apply advance_edge; reflexivity]|reflexivity].
  unfold web_search, search_web, search, bind, item, invoke. rewrite Hq. reflexivity.
Qed.

Lemma step_generate (r : Run Call GraphState GraphState) q d :
  status r = Running "generate" ->
  question (state r) = Some q ->
  documents (state r) = Some d ->
  let g := rag_chain c (log r) d q in
  let p := patch (Some d) (Some q) (Some g) in
  let h := log r ++ [AskGenerator d q] in
  step merge (build_graph c) r
  = {| status := status_at (generation_dest (generation_label c h q d g));
       state := merge (state r) p;
       trace := trace r ++ [("generate", p)];
       log := h ++ generation_calls c h q d g |}.
Proof.
  intros Hs Hq Hd g p h.
  etransitivity; [eapply step_running;
    [exact Hs|apply node_generate
    |unfold generate, bind, item, invoke; rewrite Hq, Hd; reflexivity
    |apply advance_generate; reflexivity]|reflexivity].
Qed.

End AdaptiveSteps.

(** C3.  After a generate step (question, documents and generation present)
    the two-stage decision leads back to generate exactly when the
    groundedness grader does not answer "yes", to transform_query exactly when
    it does and the answer-quality grader does not, and to END exactly when
    both answer "yes". *)
Theorem C3_generate_decision (c : Adaptive.Collaborators) (s : Adaptive.GraphState)
    (h : list Adaptive.Call) (q : string) (d : Adaptive.Docs) (g : string) :
  Adaptive.question s = Some q ->
  Adaptive.documents s = Some d ->
  Adaptive.generation s = Some g ->
  exists dest h',
    advance (Adaptive.build_graph c) "generate" s h = (Ok dest, h')
    /\ (dest = "generate" <-> ~ grounded c h d g)
    /\ (dest = "transform_query" <-> grounded c h d g /\ ~ addresses c h q d g)
    /\ (dest = END <-> grounded c h d g /\ addresses c h q d g).
Proof.
  intros Hq Hd Hg. eexists _, _.
  split; [apply advance_generate; eassumption|].
  unfold generation_label, grounded, addresses.
  destruct (decide (Adaptive.hallucination_grader c h d g = "yes")) as [Y|N].
  - destruct (decide (Adaptive.answer_grader c (h ++ [Adaptive.AskHallucination d g]) q g
                      = "yes")) as [Y'|N'].
    + change (generation_dest "useful") with "__end__".
      unfold END. repeat split; intros; try tauto; congruence.
    + change (generation_dest "not useful") with "transform_query".
      unfold END. repeat split; intros; try tauto; congruence.
  - change (generation_dest "not supported") with "generate".
    unfold END. repeat split; intros; try tauto; congruence.
Qed.

Lemma C3_witness :
  exists dest h',
    advance (Adaptive.build_graph never_grounded) "generate"
      (full_state "q" (Adaptive.DocList [doc "a"]) "draft") [] = (Ok dest, h')
    /\ (dest = "generate"
        <-> ~ grounded never_grounded [] (Adaptive.DocList [doc "a"]) "draft")
    /\ (dest = "transform_query"
        <-> grounded never_grounded [] (Adaptive.DocList [doc "a"]) "draft"
            /\ ~ addresses never_grounded [] "q" (Adaptive.DocList [doc "a"]) "draft")
    /\ (dest = END
        <-> grounded never_grounded [] (Adaptive.DocList [doc "a"]) "draft"
            /\ addresses never_grounded [] "q" (Adaptive.DocList [doc "a"]) "draft").
Proof.
  exact (C3_generate_decision never_grounded
           (full_state "q" (Adaptive.DocList [doc "a"]) "draft") []
           "q" (Adaptive.DocList [doc "a"]) "draft" eq_refl eq_refl eq_refl).
Defined.

(** ** The grading decision and the rewrite cycle *)

Lemma decide_to_generate_cases (s : Adaptive.GraphState) (h : list Adaptive.Call) :
  (no_documents s /\ Adaptive.decide_to_generate s h = (Ok (Some "transform_query"), h))
  \/ (some_documents s /\ Adaptive.decide_to_generate s h = (Ok (Some "generate"), h))
  \/ ((exists d, Adaptive.documents s = Some (Adaptive.DocOne d))
      /\ Adaptive.decide_to_generate s h = (Raise (TypeError "len"), h)).
Proof.
  unfold no_documents, some_documents, Adaptive.decide_to_generate.
  destruct (Adaptive.documents s) as [[[|d ds]|d]|]; simpl.
  - left. split; [right|]; reflexivity.
  - right. left. split; [exists d, ds|]; reflexivity.
  - right. right. split; [exists d|]; reflexivity.
  - left. split; [left|]; reflexivity.
Qed.

Lemma no_documents_not_some (s : Adaptive.GraphState) :
  no_documents s -> ~ some_documents s.
Proof. intros [E|E] (d & ds & E'); rewrite E in E'; discriminate E'. Qed.

Lemma grade_documents_stores_list (c : Adaptive.Collaborators) (s : Adaptive.GraphState)
    (h h' : list Adaptive.Call) (p : Adaptive.GraphState) :
  Adaptive.grade_documents c s h = (Ok p, h') ->
  exists ds, Adaptive.documents p = Some (Adaptive.DocList ds).
Proof.
  unfold Adaptive.grade_documents, bind, item. intros E.
  destruct (Adaptive.question s) as [q|]; [|discriminate E].
  unfold ret at 1 in E.
  destruct (Adaptive.documents s) as [[ds|d]|]; [|discriminate E|discriminate E].
  unfold ret at 1 in E. rewrite grade_loop_spec in E. unfold ret in E.
  injection E as <- _. eexists. reflexivity.
Qed.

(** C2.  The decision after grade_documents answers transform_query exactly
    when no document survived grading (the list under documents is empty, or
    the key is missing) and generate exactly when some document survived (the
    list is not empty); the state it decides on, the one grade_documents has
    just written, always holds such a list, so one of the two labels is
    answered; and in a run that is about to retrieve, if the relevance grader
    accepts none of the retrieved documents, the next steps are
    grade_documents, transform_query and retrieve again, the second retrieval
    being asked with the rewriter's answer. *)
Theorem C2_grade_decision (c : Adaptive.Collaborators) (s : Adaptive.GraphState)
    (h0 : list Adaptive.Call) (r : Run Adaptive.Call Adaptive.GraphState Adaptive.GraphState)
    (q : string) :
  status r = Running "retrieve" ->
  Adaptive.question (state r) = Some q ->
  let ds := Adaptive.retriever c (log r) q in
  let h1 := log r ++ [Adaptive.AskRetriever q] in
  Forall (fun v => v <> "yes") (verdicts c h1 q ds) ->
  let q' := Adaptive.question_rewriter c (h1 ++ grading_calls q ds) q in
  let r4 := run_for Adaptive.merge (Adaptive.build_graph c) 4 r in
  (Adaptive.decide_to_generate s h0 = (Ok (Some "transform_query"), h0) <-> no_documents s)
  /\ (Adaptive.decide_to_generate s h0 = (Ok (Some "generate"), h0) <-> some_documents s)
  /\ (forall p h', Adaptive.grade_documents c s h0 = (Ok p, h') ->
                   no_documents (Adaptive.merge s p) \/ some_documents (Adaptive.merge s p))
  /\ map fst (trace r4)
     = map fst (trace r) ++ ["retrieve"; "grade_documents"; "transform_query"; "retrieve"]
  /\ log r4 = h1 ++ grading_calls q ds
              ++ [Adaptive.AskRewriter q; Adaptive.AskRetriever q']
  /\ Adaptive.question (state r4) = Some q'.
Proof.
  intros Hs Hq ds h1 Hno q' r4.
  split; [|split; [|split]].
  - destruct (decide_to_generate_cases s h0) as [[Hn E]|[[Hn E]|[[d Hn] E]]]; rewrite E;
      split; intros H; try exact Hn; try reflexivity; try discriminate H.
    + exfalso. exact (no_documents_not_some s H Hn).
    + destruct H as [H|H]; rewrite H in Hn; discriminate Hn.
  - destruct (decide_to_generate_cases s h0) as [[Hn E]|[[Hn E]|[[d Hn] E]]]; rewrite E;
      split; intros H; try exact Hn; try reflexivity; try discriminate H.
    + exfalso. exact (no_documents_not_some s Hn H).
    + destruct H as (d' & ds' & H). rewrite H in Hn. discriminate Hn.
  - intros p h' E. apply grade_documents_stores_list in E. destruct E as [kept E].
    unfold no_documents, some_documents. cbn [Adaptive.merge Adaptive.documents].
    rewrite E. destruct kept as [|d kept]; [left; right; reflexivity|right; eauto].
  - assert (E : exists s4 p1 p2 p3 p4,
               r4 = {| status := Running "grade_documents"; state := s4;
                       trace := trace r ++ [("retrieve", p1); ("grade_documents", p2);
                                            ("transform_query", p3); ("retrieve", p4)];
                       log := h1 ++ grading_calls q ds
                              ++ [Adaptive.AskRewriter q; Adaptive.AskRetriever q'] |}
               /\ Adaptive.question s4 = Some q').
    { subst r4. eexists _, _, _, _, _.
      rewrite run_for_unfold, (step_retrieve c r q Hs Hq).
      rewrite run_for_unfold. erewrite step_grade; [|reflexivity|reflexivity|reflexivity].
      cbn [log]. fold ds h1. rewrite (survivors_none ds _ Hno).
      cbn [negb Adaptive.truthy].
      rewrite run_for_unfold.
      erewrite step_transform; [|reflexivity|reflexivity|reflexivity].
      rewrite run_for_unfold. erewrite step_retrieve; [|reflexivity|reflexivity].
      cbn [run_for log trace]. rewrite <- !app_assoc. split; reflexivity. }
    destruct E as (s4 & p1 & p2 & p3 & p4 & -> & Hq4).
    cbn [trace log state]. rewrite map_app. repeat split. exact Hq4.
Qed.

Lemma C2_witness :
  let r := at_node "retrieve" (Adaptive.inputs "q") in
  let r4 := run_for Adaptive.merge (Adaptive.build_graph never_relevant) 4 r in
  (Adaptive.decide_to_generate (full_state "q" (Adaptive.DocList []) "g") []
     = (Ok (Some "transform_query"), [])
   <-> no_documents (full_state "q" (Adaptive.DocList []) "g"))
  /\ (Adaptive.decide_to_generate (full_state "q" (Adaptive.DocList []) "g") []
      = (Ok (Some "generate"), [])
      <-> some_documents (full_state "q" (Adaptive.DocList []) "g"))
  /\ (forall p h',
        Adaptive.grade_documents never_relevant (full_state "q" (Adaptive.DocList []) "g") []
        = (Ok p, h') ->
        no_documents (Adaptive.merge (full_state "q" (Adaptive.DocList []) "g") p)
        \/ some_documents (Adaptive.merge (full_state "q" (Adaptive.DocList []) "g") p))
  /\ map fst (trace r4)
     = [] ++ ["retrieve"; "grade_documents"; "transform_query"; "retrieve"]
  /\ log r4 = [Adaptive.AskRetriever "q"] ++ grading_calls "q" [doc "a"; doc "b"]
              ++ [Adaptive.AskRewriter "q"; Adaptive.AskRetriever "better q"]
  /\ Adaptive.question (state r4) = Some "better q".
Proof.
  apply (C2_grade_decision never_relevant (full_state "q" (Adaptive.DocList []) "g") []
           (at_node "retrieve" (Adaptive.inputs "q")) "q" eq_refl eq_refl).
  repeat constructor; intros E; discriminate E.
Defined.

(** ** Regeneration *)

Lemma generation_calls_no_retrieval (c : Adaptive.Collaborators) h q d g :
  no_retrieval (generation_calls c h q d g).
Proof.
  unfold no_retrieval, generation_calls.
  destruct (decide (Adaptive.hallucination_grader c h d g = "yes"));
    repeat constructor.
Qed.

(** C4.  When the groundedness grader does not accept the answer of a
    generate step, the next step is generate again; it reads the same
    documents, its patch and the state carry the same documents, and between
    the two generations only the generator and the graders are called, never
    the retriever or the web search. *)
Theorem C4_regenerate_same_documents (c : Adaptive.Collaborators)
    (r : Run Adaptive.Call Adaptive.GraphState Adaptive.GraphState)
    (q : string) (d : Adaptive.Docs) :
  status r = Running "generate" ->
  Adaptive.question (state r) = Some q ->
  Adaptive.documents (state r) = Some d ->
  let g1 := Adaptive.rag_chain c (log r) d q in
  let h1 := log r ++ [Adaptive.AskGenerator d q] in
  ~ grounded c h1 d g1 ->
  let r1 := step Adaptive.merge (Adaptive.build_graph c) r in
  let r2 := step Adaptive.merge (Adaptive.build_graph c) r1 in
  status r1 = Running "generate"
  /\ Adaptive.documents (state r1) = Some d
  /\ log r1 = h1 ++ [Adaptive.AskHallucination d g1]
  /\ (exists p1 p2 calls,
        trace r2 = trace r ++ [("generate", p1); ("generate", p2)]
        /\ Adaptive.documents p1 = Some d
        /\ Adaptive.documents p2 = Some d
        /\ log r2 = log r1 ++ Adaptive.AskGenerator d q :: calls
        /\ no_retrieval calls)
  /\ Adaptive.documents (state r2) = Some d.
Proof.
  intros Hs Hq Hd g1 h1 Hng r1 r2.
  assert (E1 : r1 = {| status := Running "generate";
                       state := Adaptive.merge (state r)
                                  (Adaptive.patch (Some d) (Some q) (Some g1));
                       trace := trace r ++ [("generate",
                                  Adaptive.patch (Some d) (Some q) (Some g1))];
                       log := h1 ++ [Adaptive.AskHallucination d g1] |}).
  { subst r1. rewrite (step_generate c r q d Hs Hq Hd). fold g1 h1.
    unfold generation_label, generation_calls. unfold grounded in Hng.
    destruct (decide (Adaptive.hallucination_grader c h1 d g1 = "yes")) as [Y|N];
      [contradiction|reflexivity]. }
  subst r2. rewrite E1.
  erewrite step_generate; [|reflexivity|reflexivity|reflexivity].
  cbn [status state trace log].
  repeat split.
  eexists _, _, _.
  split; [symmetry; apply (app_assoc _ [_] [_])|].
  split; [reflexivity|]. split; [reflexivity|].
  split; [|apply generation_calls_no_retrieval].
  symmetry. apply (app_assoc _ [_] _).
Qed.

Lemma C4_witness :
  let r := at_node "generate" (full_state "q" (Adaptive.DocList [doc "a"]) "old") in
  let r1 := step Adaptive.merge (Adaptive.build_graph never_grounded) r in
  let r2 := step Adaptive.merge (Adaptive.build_graph never_grounded) r1 in
  status r1 = Running "generate"
  /\ Adaptive.documents (state r1) = Some (Adaptive.DocList [doc "a"])
  /\ log r1 = ([] ++ [Adaptive.AskGenerator (Adaptive.DocList [doc "a"]) "q"])
              ++ [Adaptive.AskHallucination (Adaptive.DocList [doc "a"]) "draft"]
  /\ (exists p1 p2 calls,
        trace r2 = [] ++ [("generate", p1); ("generate", p2)]
        /\ Adaptive.documents p1 = Some (Adaptive.DocList [doc "a"])
        /\ Adaptive.documents p2 = Some (Adaptive.DocList [doc "a"])
        /\ log r2 = log r1 ++ Adaptive.AskGenerator (Adaptive.DocList [doc "a"]) "q" :: calls
        /\ no_retrieval calls)
  /\ Adaptive.documents (state r2) = Some (Adaptive.DocList [doc "a"]).
Proof.
  apply (C4_regenerate_same_documents never_grounded
           (at_node "generate" (full_state "q" (Adaptive.DocList [doc "a"]) "old"))
           "q" (Adaptive.DocList [doc "a"]) eq_refl eq_refl eq_refl).
  intros E. discriminate E.
Defined.

(** ** The regeneration loop has no bound *)

Lemma stream_succ (c : Adaptive.Collaborators) (question : string) (n : nat) :
  Adaptive.stream c question (S n)
  = step Adaptive.merge (Adaptive.build_graph c) (Adaptive.stream c question n).
Proof. unfold Adaptive.stream. apply run_for_succ. Qed.

(** With a groundedness grader that always answers "no", the run is at
    generate after any number of steps from the second on. *)
Lemma never_grounded_loop (n : nat) :
  let r := Adaptive.stream never_grounded "q" (2 + n) in
  status r = Running "generate"
  /\ Adaptive.question (state r) = Some "q"
  /\ Adaptive.documents (state r) = Some (Adaptive.DocList [doc "a"])
  /\ Adaptive.iterations (state r) = None
  /\ length (trace r) = 2 + n.
Proof.
  induction n as [|n IH].
  - vm_compute. repeat split.
  - replace (2 + S n) with (S (2 + n)) by lia.
    cbv zeta in *. rewrite stream_succ.
    destruct IH as (Hs & Hq & Hd & Hi & Hl).
    rewrite (step_generate never_grounded _ "q" _ Hs Hq Hd).
    cbn [status state trace log].
    split; [reflexivity|]. split; [reflexivity|]. split; [reflexivity|].
    split; [exact Hi|]. rewrite length_app, Hl. simpl. lia.
Qed.

(** ** Runs of the router-first graph that reach END *)

Section AdaptiveDone.
Import Adaptive.
Variable c : Collaborators.

Lemma branches_other node :
  node <> START -> node <> "grade_documents" -> node <> "generate" ->
  branches (build_graph c) !! node = None.
Proof.
  intros N1 N2 N3. unfold build_graph. cbn [branches].
  rewrite !lookup_insert_ne by congruence. apply lookup_empty.
Qed.

Lemma edges_cases node dest :
  edges (build_graph c) !! node = Some dest ->
  dest = "generate" \/ dest = "grade_documents" \/ dest = "retrieve".
Proof.
  unfold build_graph. cbn [edges]. intros E.
  destruct (decide (node = "web_search")) as [->|N1];
    [rewrite lookup_insert_eq in E; left; congruence|].
  rewrite lookup_insert_ne in E by congruence.
  destruct (decide (node = "retrieve")) as [->|N2];
    [rewrite lookup_insert_eq in E; right; left; congruence|].
  rewrite lookup_insert_ne in E by congruence.
  destruct (decide (node = "transform_query")) as [->|N3];
    [rewrite lookup_insert_eq in E; right; right; congruence|].
  rewrite lookup_insert_ne in E by congruence.
  rewrite lookup_empty in E. discriminate E.
Qed.

Lemma route_question_cases s h label h' :
  route_question c s h = (Ok (Some label), h') ->
  label = "web_search" \/ label = "vectorstore".
Proof.
  unfold route_question, bind, item, invoke.
  destruct (question s) as [q|]; [|intros E; discriminate E].
  unfold ret at 1.
  destruct (decide (question_router c h q = "web_search"));
    [intros E; injection E as E _; left; congruence|].
  destruct (decide (question_router c h q = "vectorstore"));
    [intros E; injection E as E _; right; congruence|].
  intros E. discriminate E.
Qed.

(** END is reached from generate only, through the label "useful". *)
Lemma advance_end node s h h' :
  advance (build_graph c) node s h = (Ok END, h') ->
  node = "generate"
  /\ exists q d g,
       question s = Some q /\ documents s = Some d /\ generation s = Some g
       /\ h' = h ++ [AskHallucination d g; AskAnswer q g].
Proof.
  intros E.
  destruct (decide (node = START)) as [->|N1].
  { exfalso. unfold advance, bind in E. rewrite branch_start in E.
    destruct (route_question c s h) as [[[l|]|f] h1] eqn:R; try discriminate E.
    apply route_question_cases in R. destruct R as [-> | ->]; discriminate E. }
  destruct (decide (node = "grade_documents")) as [->|N2].
  { exfalso. unfold advance, bind in E. rewrite branch_grade in E.
    destruct (decide_to_generate_cases s h) as [[_ R]|[[_ R]|[_ R]]];
      rewrite R in E; discriminate E. }
  destruct (decide (node = "generate")) as [->|N3].
  { split; [reflexivity|].
    destruct (question s) as [q|] eqn:Hq;
      [|unfold advance, bind in E; rewrite branch_generate in E;
        unfold grade_generation_v_documents_and_question, bind, item in E;
        rewrite Hq in E; discriminate E].
    destruct (documents s) as [d|] eqn:Hd;
      [|unfold advance, bind in E; rewrite branch_generate in E;
        unfold grade_generation_v_documents_and_question, bind, item in E;
        rewrite Hq, Hd in E; discriminate E].
    destruct (generation s) as [g|] eqn:Hg;
      [|unfold advance, bind in E; rewrite branch_generate in E;
        unfold grade_generation_v_documents_and_question, bind, item in E;
        rewrite Hq, Hd, Hg in E; discriminate E].
    rewrite (advance_generate c s h q d g Hq Hd Hg) in E.
    exists q, d, g. repeat split.
    unfold generation_label, generation_calls in E.
    destruct (decide (hallucination_grader c h d g = "yes")); [|discriminate E].
    destruct (decide (answer_grader c (h ++ [AskHallucination d g]) q g = "yes"));
      [|discriminate E].
    injection E as E. symmetry. exact E. }
  exfalso. unfold advance in E. rewrite (branches_other node N1 N2 N3) in E.
  destruct (edges (build_graph c) !! node) as [dest|] eqn:Ed; [|discriminate E].
  apply edges_cases in Ed. unfold ret in E. injection E as E _.
  destruct Ed as [-> | [-> | ->]]; discriminate E.
Qed.

Lemma generate_ok s h p h' :
  generate c s h = (Ok p, h') ->
  exists q d,
    question s = Some q /\ documents s = Some d
    /\ p = patch (Some d) (Some q) (Some (rag_chain c h d q))
    /\ h' = h ++ [AskGenerator d q].
Proof.
  unfold generate, bind, item, invoke.
  destruct (question s) as [q|]; [|intros E; discriminate E].
  destruct (documents s) as [d|]; [|intros E; discriminate E].
  unfold ret. intros E. injection E as E1 E2. subst.
  exists q, d. repeat split.
Qed.

End AdaptiveDone.

Section AdaptiveRuns.
Import Adaptive.
Variable c : Collaborators.

Lemma step_reaches_done (r : Run Call GraphState GraphState) :
  status r <> Done ->
  status (step merge (build_graph c) r) = Done ->
  ended_by_generate c (step merge (build_graph c) r).
Proof.
  intros Hnd. unfold step.
  destruct (status r) as [node| |f] eqn:Hs; [|contradiction|rewrite Hs; discriminate].
  destruct (nodes (build_graph c) !! node) as [f|] eqn:Hn; [|discriminate].
  destruct (f (state r) (log r)) as [[p|e] h] eqn:Hf; [|discriminate].
  destruct (advance (build_graph c) node (merge (state r) p) h) as [[dest|e] h'] eqn:Ha;
    [|discriminate].
  cbn [status]. intros Hd. apply status_at_done in Hd. subst dest.
  apply advance_end in Ha. destruct Ha as (-> & q & d & g & Hq & Hdoc & Hg & ->).
  rewrite node_generate in Hn. injection Hn as <-.
  apply generate_ok in Hf. destruct Hf as (q0 & d0 & Hq0 & Hd0 & -> & ->).
  cbn in Hq, Hdoc, Hg. injection Hq as <-. injection Hdoc as <-. injection Hg as <-.
  exists (trace r), (log r), d0, q0. cbn [trace log state].
  split; [reflexivity|]. split; [rewrite <- app_assoc; reflexivity|reflexivity].
Qed.

Lemma run_reaches_done n : forall r : Run Call GraphState GraphState,
  status r <> Done ->
  status (run_for merge (build_graph c) n r) = Done ->
  ended_by_generate c (run_for merge (build_graph c) n r).
Proof.
  induction n as [|n IH]; intros r Hnd Hd; [contradiction|].
  rewrite run_for_succ in *.
  destruct (status (run_for merge (build_graph c) n r)) as [node| |f] eqn:Hs.
  - apply step_reaches_done; [rewrite Hs; discriminate|exact Hd].
  - rewrite step_done by exact Hs. apply IH; assumption.
  - rewrite (step_failed merge (build_graph c) _ f Hs) in Hd. rewrite Hs in Hd.
    discriminate Hd.
Qed.

Lemma init_not_done question h :
  status (init (build_graph c) (inputs question) h) <> Done.
Proof.
  unfold init, advance, bind. rewrite branch_start.
  destruct (route_question c (inputs question) h) as [[[l|]|f] h1] eqn:R;
    try (cbn; discriminate).
  apply route_question_cases in R. destruct R as [-> | ->]; cbn; discriminate.
Qed.

Lemma last_generation_snoc t (p : GraphState) :
  last_generation (t ++ [("generate", p)]) = generation p.
Proof.
  unfold last_generation, last_step_named.
  rewrite filter_app, filter_cons_True by reflexivity.
  rewrite filter_nil, last_snoc. reflexivity.
Qed.

End AdaptiveRuns.

(** C7 (as stated) fails.  In the agent-first graph the agent may answer
    without asking for the tool: the run ends after the single step agent, no
    generate step is in its trace.  In the router-first graph nothing checks
    the text of the generation: when the generator returns the empty string and
    both graders accept, the run ends with an empty generation. *)
Lemma C7_counterexample :
  (status (Agentic.stream direct "hi" 1) = Done
   /\ map fst (trace (Agentic.stream direct "hi" 1)) = ["agent"]
   /\ ~ agentic_released_from_generate (Agentic.stream direct "hi" 1))
  /\ (status (Adaptive.stream empty_draft "q" 3) = Done
      /\ Adaptive.generation (state (Adaptive.stream empty_draft "q" 3)) = Some EmptyString
      /\ ~ released_from_generate (Adaptive.stream empty_draft "q" 3)).
Proof.
  split.
  - split; [vm_compute; reflexivity|]. split; [vm_compute; reflexivity|].
    intros (g & _ & _ & E). vm_compute in E. discriminate E.
  - split; [vm_compute; reflexivity|]. split; [vm_compute; reflexivity|].
    intros (g & Hg & E & _). vm_compute in E. injection E as <-. apply Hg. reflexivity.
Qed.

(** C7 (amended).  A run of the router-first graph that reaches END has
    generate as its last step; run returns the patch of that step; the
    generation of that patch is the answer the generator gave in that step,
    it is the generation of the last generate step of the trace and the one
    held by the state; the last three calls of the run are that generation
    and the two accepting grader calls. *)
Theorem C7_accepted_run_ends_with_generate (c : Adaptive.Collaborators)
    (question : string) (n : nat) :
  status (Adaptive.stream c question n) = Done ->
  let r := Adaptive.stream c question n in
  exists p g h d q,
    Adaptive.run c question n = Some (Ok (Some p))
    /\ last (trace r) = Some ("generate", p)
    /\ Adaptive.generation p = Some g
    /\ last_generation (trace r) = Some g
    /\ Adaptive.generation (state r) = Some g
    /\ g = Adaptive.rag_chain c h d q
    /\ log r = h ++ [Adaptive.AskGenerator d q; Adaptive.AskHallucination d g;
                     Adaptive.AskAnswer q g].
Proof.
  intros Hd. cbv zeta. unfold Adaptive.run. cbv zeta.
  set (r := Adaptive.stream c question n) in *.
  assert (E : ended_by_generate c r).
  { apply run_reaches_done; [apply init_not_done|exact Hd]. }
  destruct E as (t & h & d & q & Ht & Hl & Hg).
  exists (Adaptive.patch (Some d) (Some q) (Some (Adaptive.rag_chain c h d q))),
    (Adaptive.rag_chain c h d q), h, d, q.
  unfold last_output. rewrite Hd, Ht.
  rewrite last_snoc, last_generation_snoc.
  repeat split; assumption.
Qed.

Lemma C7_witness :
  let r := Adaptive.stream accepting "q" 3 in
  exists p g h d q,
    Adaptive.run accepting "q" 3 = Some (Ok (Some p))
    /\ last (trace r) = Some ("generate", p)
    /\ Adaptive.generation p = Some g
    /\ last_generation (trace r) = Some g
    /\ Adaptive.generation (state r) = Some g
    /\ g = Adaptive.rag_chain accepting h d q
    /\ log r = h ++ [Adaptive.AskGenerator d q; Adaptive.AskHallucination d g;
                     Adaptive.AskAnswer q g].
Proof.
  apply (C7_accepted_run_ends_with_generate accepting "q" 3).
  vm_compute. reflexivity.
Defined.

(** ** A route outside the declared labels *)

Lemma route_question_none (c : Adaptive.Collaborators) s h q :
  Adaptive.question s = Some q ->
  Adaptive.question_router c h q <> "web_search" ->
  Adaptive.question_router c h q <> "vectorstore" ->
  Adaptive.route_question c s h = (Ok None, h ++ [Adaptive.AskRouter q]).
Proof.
  intros Hq N1 N2. unfold Adaptive.route_question, bind, item, invoke. rewrite Hq.
  unfold ret at 1.
  destruct (decide (Adaptive.question_router c h q = "web_search")); [contradiction|].
  destruct (decide (Adaptive.question_router c h q = "vectorstore")); [contradiction|].
  reflexivity.
Qed.

(** C8.  When the route classifier answers neither "web_search" nor
    "vectorstore", route_question yields no label; the run fails at once with
    a configuration fault at START: no step is executed, the classifier has
    been asked exactly once and nothing else is called, and [run] raises that
    fault however long the run is observed. *)
Theorem C8_undeclared_route_is_fatal (c : Adaptive.Collaborators) (question : string)
    (n : nat) :
  Adaptive.question_router c [] question <> "web_search" ->
  Adaptive.question_router c [] question <> "vectorstore" ->
  let r := Adaptive.stream c question n in
  status r = Failed (ConfigurationFault START None)
  /\ trace r = []
  /\ log r = [Adaptive.AskRouter question]
  /\ Adaptive.run c question n = Some (Raise (ConfigurationFault START None)).
Proof.
  intros N1 N2.
  assert (E : init (Adaptive.build_graph c) (Adaptive.inputs question) []
              = {| status := Failed (ConfigurationFault START None);
                   state := Adaptive.inputs question; trace := [];
                   log := [Adaptive.AskRouter question] |}).
  { unfold init.
    rewrite (advance_undeclared (Adaptive.build_graph c) START _ _ _ _ None
               ([] ++ [Adaptive.AskRouter question]) (branch_start c)
               (route_question_none c (Adaptive.inputs question) [] question
                  eq_refl N1 N2));
      [reflexivity|intros l El; discriminate El]. }
  cbv zeta. unfold Adaptive.run, Adaptive.stream. rewrite E.
  erewrite run_for_failed by reflexivity.
  repeat split.
Qed.

Lemma C8_witness :
  let r := Adaptive.stream unknown_route "q" 5 in
  status r = Failed (ConfigurationFault START None)
  /\ trace r = []
  /\ log r = [Adaptive.AskRouter "q"]
  /\ Adaptive.run unknown_route "q" 5 = Some (Raise (ConfigurationFault START None)).
Proof.
  apply (C8_undeclared_route_is_fatal unknown_route "q" 5);
    intros E; discriminate E.
Defined.

(** ** tools.py: the web search *)

Lemma format_loop_spec results : forall i acc,
  Adaptive.format_loop i results acc
  = acc ++ imap (fun j result => Adaptive.format_entry (i + j) result) results.
Proof.
  induction results as [|r rest IH]; intros i acc; simpl.
  - rewrite app_nil_r. reflexivity.
  - rewrite IH, <- app_assoc. simpl. f_equal. f_equal.
    + f_equal. lia.
    + apply imap_ext. intros j x _. simpl. f_equal. lia.
Qed.

Lemma _format_results_spec results : Adaptive._format_results results = formatted results.
Proof.
  unfold Adaptive._format_results, formatted. rewrite format_loop_spec. reflexivity.
Qed.




(** ** Properties kept by every step of a graph *)

Section EngineInvariant.
Context {H State Patch : Type}.
Variable merge : State -> Patch -> State.
Variable g : Graph H State Patch.
Variable I : State -> list H -> Prop.

Hypothesis node_keeps :
  forall name (f : State -> Eff H Patch) s h p h',
    nodes g !! name = Some f -> I s h -> f s h = (Ok p, h') -> I (merge s p) h'.
Hypothesis node_raise_keeps :
  forall name (f : State -> Eff H Patch) s h e h',
    nodes g !! name = Some f -> I s h -> f s h = (Raise e, h') -> I s h'.
Hypothesis router_keeps :
  forall name (router : State -> Eff H (option string)) pm s h res h',
    branches g !! name = Some (router, pm) -> I s h -> router s h = (res, h') -> I s h'.

Lemma advance_keeps node s h res h' :
  I s h -> advance g node s h = (res, h') -> I s h'.
Proof.
  intros Hi. unfold advance, bind.
  destruct (branches g !! node) as [[router pm]|] eqn:Hb.
  - destruct (router s h) as [[label|e] h1] eqn:Hr.
    + pose proof (router_keeps _ _ _ _ _ _ _ Hb Hi Hr) as Hi1.
      destruct label as [l|]; [destruct pm as [pm|]; [destruct (pm !! l)|]|];
        unfold ret, throw; intros E; injection E as _ <-; exact Hi1.
    + intros E. injection E as _ <-. exact (router_keeps _ _ _ _ _ _ _ Hb Hi Hr).
  - destruct (edges g !! node); unfold ret, throw; intros E; injection E as _ <-; exact Hi.
Qed.

Lemma step_keeps r :
  I (state r) (log r) -> I (state (step merge g r)) (log (step merge g r)).
Proof.
  intros Hi. unfold step.
  destruct (status r) as [node| |f]; [|exact Hi|exact Hi].
  destruct (nodes g !! node) as [f|] eqn:Hn; [|exact Hi].
  destruct (f (state r) (log r)) as [[p|e] h] eqn:Hf.
  - pose proof (node_keeps _ _ _ _ _ _ Hn Hi Hf) as Hi1.
    destruct (advance g node (merge (state r) p) h) as [[dest|e] h'] eqn:Ha;
      cbn [state log]; exact (advance_keeps _ _ _ _ _ Hi1 Ha).
  - cbn [state log]. exact (node_raise_keeps _ _ _ _ _ _ Hn Hi Hf).
Qed.

Lemma run_for_keeps n : forall r,
  I (state r) (log r) ->
  I (state (run_for merge g n r)) (log (run_for merge g n r)).
Proof.
  induction n as [|n IH]; intros r Hi; [exact Hi|].
  simpl. apply IH, step_keeps, Hi.
Qed.

Lemma init_keeps inputs h :
  I inputs h -> I (state (init g inputs h)) (log (init g inputs h)).
Proof.
  intros Hi. unfold init.
  destruct (advance g START inputs h) as [[dest|e] h'] eqn:Ha;
    cbn [state log]; exact (advance_keeps _ _ _ _ _ Hi Ha).
Qed.

End EngineInvariant.

(** ** The agent-first graph: the question is the first message *)

Section AgenticQuestion.
Import Agentic.
Variable c : Collaborators.

Lemma last_message_cons m0 rest h :
  last_message (m0 :: rest) h = (Ok (default m0 (last rest)), h).
Proof.
  unfold last_message. rewrite last_cons. destruct (last rest); reflexivity.
Qed.

Lemma grade_documents_call m0 rest h :
  let docs := content (default m0 (last rest)) in
  grade_documents c {| messages := m0 :: rest |} h
  = (Ok (Some (if decide (grader c h (content m0) docs = "yes")
               then "generate" else "rewrite")),
     h ++ [AskGrader (content m0) docs]).
Proof.
  intros docs. unfold grade_documents, bind. cbn [messages].
  rewrite last_message_cons. unfold first_message, invoke. cbn [head ret].
  fold docs. destruct (decide (grader c h (content m0) docs = "yes")); reflexivity.
Qed.

Lemma rewrite_call m0 rest h :
  let msg := [plain (rewrite_prompt (content m0))] in
  rewrite c {| messages := m0 :: rest |} h
  = (Ok {| messages := [rewriter_model c h msg] |}, h ++ [AskRewriter msg]).
Proof. reflexivity. Qed.

Lemma generate_call m0 rest h :
  let docs := content (default m0 (last rest)) in
  generate c {| messages := m0 :: rest |} h
  = (Ok {| messages := [plain (rag_chain c h docs (content m0))] |},
     h ++ [AskRag docs (content m0)]).
Proof.
  intros docs. unfold generate, bind. cbn [messages first_message head ret].
  rewrite last_message_cons. reflexivity.
Qed.

Lemma call_tools_spec queries : forall h,
  exists outs, call_tools c queries h = (Ok outs, h ++ map AskTool queries).
Proof.
  induction queries as [|query rest IH]; intros h; simpl.
  - exists []. unfold ret. rewrite app_nil_r. reflexivity.
  - unfold bind, invoke. destruct (IH (h ++ [AskTool query])) as [outs E].
    rewrite E. eexists. unfold ret. rewrite <- app_assoc. reflexivity.
Qed.

Lemma asks_about_tools q queries : Forall (asks_about q) (map AskTool queries).
Proof. induction queries; constructor; [exact I|assumption]. Qed.

Lemma merge_keeps_head s p m :
  head (messages s) = Some m -> head (messages (merge s p)) = Some m.
Proof.
  unfold merge. cbn [messages]. destruct (messages s); [discriminate|trivial].
Qed.

Lemma lookup_node name (f : AgentState -> Eff Call AgentState) :
  nodes (build_workflow c) !! name = Some f ->
  f = agent c \/ f = tool_node c \/ f = rewrite c \/ f = generate c.
Proof.
  unfold build_workflow. cbn [nodes]. intros E.
  repeat (apply lookup_insert_Some in E; destruct E as [[_ <-]|[_ E]]; [tauto|]).
  rewrite lookup_empty in E. discriminate E.
Qed.

Lemma lookup_branch name (router : AgentState -> Eff Call (option string)) pm :
  branches (build_workflow c) !! name = Some (router, pm) ->
  router = tools_condition \/ router = grade_documents c.
Proof.
  unfold build_workflow. cbn [branches]. intros E.
  repeat (apply lookup_insert_Some in E; destruct E as [[_ E]|[_ E]];
          [injection E as <- _; tauto|]).
  rewrite lookup_empty in E. discriminate E.
Qed.

(** Every node keeps the first message and asks about its text only. *)
Lemma node_keeps_question q name (f : AgentState -> Eff Call AgentState) s h res h' :
  nodes (build_workflow c) !! name = Some f ->
  question_kept q s h ->
  f s h = (res, h') ->
  match res with
  | Ok p => question_kept q (merge s p) h'
  | Raise _ => question_kept q s h'
  end.
Proof.
  intros Hn [Hhead Hlog] Hf.
  destruct s as [ms]. cbn [messages] in Hhead.
  destruct ms as [|m0 rest]; [discriminate Hhead|]. injection Hhead as ->.
  apply lookup_node in Hn. destruct Hn as [-> | [-> | [-> | ->]]].
  - unfold agent, bind, invoke, ret in Hf. injection Hf as <- <-.
    split; [reflexivity|]. apply Forall_app. split; [exact Hlog|repeat constructor].
  - unfold tool_node, bind in Hf. cbn [messages] in Hf.
    rewrite last_message_cons in Hf.
    destruct (call_tools_spec (tool_calls (default (plain q) (last rest))) h) as [outs E].
    rewrite E in Hf. unfold ret in Hf. injection Hf as <- <-.
    split; [reflexivity|]. apply Forall_app. split; [exact Hlog|apply asks_about_tools].
  - rewrite rewrite_call in Hf. injection Hf as <- <-.
    split; [reflexivity|]. apply Forall_app. split; [exact Hlog|repeat constructor].
  - rewrite generate_call in Hf. injection Hf as <- <-.
    split; [reflexivity|]. apply Forall_app. split; [exact Hlog|repeat constructor].
Qed.

Lemma router_keeps_question q name (router : AgentState -> Eff Call (option string))
    pm s h res h' :
  branches (build_workflow c) !! name = Some (router, pm) ->
  question_kept q s h ->
  router s h = (res, h') ->
  question_kept q s h'.
Proof.
  intros Hb [Hhead Hlog] Hr. split; [exact Hhead|].
  destruct s as [ms]. cbn [messages] in Hhead.
  destruct ms as [|m0 rest]; [discriminate Hhead|]. injection Hhead as ->.
  apply lookup_branch in Hb. destruct Hb as [-> | ->].
  - unfold tools_condition, bind in Hr. cbn [messages] in Hr.
    rewrite last_message_cons in Hr.
    destruct (tool_calls (default (plain q) (last rest)));
      unfold ret in Hr; injection Hr as _ <-; exact Hlog.
  - rewrite grade_documents_call in Hr. injection Hr as _ <-.
    apply Forall_app. split; [exact Hlog|repeat constructor].
Qed.

Lemma stream_keeps_question question n :
  question_kept question (state (stream c question n)) (log (stream c question n)).
Proof.
  unfold stream.
  apply (run_for_keeps merge (build_workflow c)
           (fun s h => question_kept question s h)).
  - intros name f s h p h' Hn Hi Hf.
    exact (node_keeps_question question name f s h (Ok p) h' Hn Hi Hf).
  - intros name f s h e h' Hn Hi Hf.
    exact (node_keeps_question question name f s h (Raise e) h' Hn Hi Hf).
  - intros name router pm s h res h'. apply router_keeps_question.
  - apply init_keeps.
    + intros name router pm s h res h'. apply router_keeps_question.
    + split; [reflexivity|constructor].
Qed.

End AgenticQuestion.


(** ** The rewrite cycle of the agent-first graph has no bound *)

Section AgenticLoop.
Import Agentic.

Lemma last_message_snoc ms m h : last_message (ms ++ [m]) h = (Ok m, h).
Proof. unfold last_message. rewrite last_snoc. reflexivity. Qed.

Lemma agentic_stream_succ c question n :
  stream c question (S n) = step merge (build_workflow c) (stream c question n).
Proof. unfold stream. apply run_for_succ. Qed.

Lemma loop_step_agent (r : Run Call AgentState AgentState) :
  status r = Running "agent" ->
  let r' := step merge (build_workflow (searching "no")) r in
  status r' = Running "retrieve"
  /\ messages (state r') = messages (state r) ++ [asking]
  /\ length (trace r') = S (length (trace r)).
Proof.
  intros Hs r'. subst r'.
  erewrite step_running with (dest := "retrieve");
    [|exact Hs|reflexivity|reflexivity|].
  - cbn [status state trace]. rewrite length_app. cbn.
    repeat split. lia.
  - eapply advance_declared;
      [reflexivity
      |unfold tools_condition, bind, merge; cbn [messages];
       rewrite last_message_snoc; reflexivity
      |reflexivity].
Qed.

Lemma loop_step_retrieve (r : Run Call AgentState AgentState) ms m0 :
  status r = Running "retrieve" ->
  messages (state r) = ms ++ [asking] ->
  head (messages (state r)) = Some m0 ->
  let r' := step merge (build_workflow (searching "no")) r in
  status r' = Running "rewrite"
  /\ length (trace r') = S (length (trace r)).
Proof.
  intros Hs Hm Hh r'. subst r'.
  destruct (state r) as [all] eqn:Es. cbn [messages] in Hm, Hh.
  destruct all as [|m rest]; [discriminate Hh|].
  assert (Et : tool_node (searching "no") (state r) (log r)
               = (Ok {| messages := [plain "docs"] |}, log r ++ [AskTool "memory"])).
  { unfold tool_node, bind. rewrite Es. cbn [messages].
    rewrite Hm, last_message_snoc. reflexivity. }
  erewrite step_running with (dest := "rewrite");
    [|exact Hs|reflexivity|exact Et|].
  - cbn [status trace]. rewrite length_app. cbn. split; [reflexivity|lia].
  - unfold advance, bind.
    change (branches (build_workflow (searching "no")) !! "retrieve")
      with (Some (grade_documents (searching "no"), @None (gmap string string))).
    cbv beta iota.
    unfold grade_documents, bind, merge. rewrite Es. cbn [messages].
    rewrite (last_message_snoc (m :: rest)).
    reflexivity.
Qed.

Lemma loop_step_rewrite (r : Run Call AgentState AgentState) m0 :
  status r = Running "rewrite" ->
  head (messages (state r)) = Some m0 ->
  let r' := step merge (build_workflow (searching "no")) r in
  status r' = Running "agent"
  /\ length (trace r') = S (length (trace r)).
Proof.
  intros Hs Hh r'. subst r'.
  destruct (state r) as [ms] eqn:Es. cbn [messages] in Hh.
  destruct ms as [|m rest]; [discriminate Hh|].
  erewrite step_running with (dest := "agent");
    [|exact Hs|reflexivity|rewrite Es; apply rewrite_call|].
  - cbn [status trace]. rewrite length_app. cbn. split; [reflexivity|lia].
  - apply advance_edge; reflexivity.
Qed.

(** After any number of steps the run is somewhere in the cycle
    agent, retrieve, rewrite. *)
Lemma searching_loop (n : nat) :
  let r := stream (searching "no") "q" n in
  in_rewrite_cycle r /\ length (trace r) = n.
Proof.
  induction n as [|n IH].
  - split; [left|]; reflexivity.
  - cbv zeta in *. rewrite agentic_stream_succ.
    destruct IH as [Hc Hl].
    destruct (stream_keeps_question (searching "no") "q" n) as [Hh _].
    destruct Hc as [Hs | [[Hs [ms Hm]] | Hs]].
    + destruct (loop_step_agent _ Hs) as (Hs' & Hm' & Hl').
      split; [right; left; split; [exact Hs'|eexists; exact Hm']|lia].
    + destruct (loop_step_retrieve _ ms _ Hs Hm Hh) as (Hs' & Hl').
      split; [right; right; exact Hs'|lia].
    + destruct (loop_step_rewrite _ _ Hs Hh) as (Hs' & Hl').
      split; [left; exact Hs'|lia].
Qed.

End AgenticLoop.

(** C1 (what the code does).  Whatever the step budget, a run whose cycle
    never meets its exit condition has executed one step more than the budget
    and is still running, with no outcome returned: in the router-first graph
    with a groundedness grader that always answers "no", and in the
    agent-first graph with a relevance grader that always answers "no".  The
    unused check should_continue_retrieval would answer "continue" on the
    state reached, since no node counts iterations. *)
Theorem C1_regeneration_unbounded (maxSteps : nat) :
  let r := Adaptive.stream never_grounded "q" (S maxSteps) in
  let a := Agentic.stream (searching "no") "q" (S maxSteps) in
  length (trace r) = S maxSteps
  /\ (exists node, status r = Running node)
  /\ Adaptive.run never_grounded "q" (S maxSteps) = None
  /\ Adaptive.should_continue_retrieval (state r) Adaptive.MAX_ITERATIONS = "continue"
  /\ length (trace a) = S maxSteps
  /\ (exists node, status a = Running node)
  /\ Agentic.query (searching "no") "q" (S maxSteps) = None.
Proof.
  cbv zeta.
  assert (A : length (trace (Agentic.stream (searching "no") "q" (S maxSteps)))
              = S maxSteps
              /\ (exists node, status (Agentic.stream (searching "no") "q" (S maxSteps))
                               = Running node)
              /\ Agentic.query (searching "no") "q" (S maxSteps) = None).
  { destruct (searching_loop (S maxSteps)) as [Hc Hl]. split; [exact Hl|].
    unfold Agentic.query. cbv zeta.
    destruct Hc as [Hs | [[Hs _] | Hs]]; rewrite Hs; split; eauto. }
  destruct maxSteps as [|n].
  - split; [reflexivity|]. split; [eexists; reflexivity|].
    split; [reflexivity|]. split; [reflexivity|exact A].
  - destruct (never_grounded_loop n) as (Hs & Hq & Hd & Hi & Hl).
    change (2 + n) with (S (S n)) in *.
    unfold Adaptive.run, Adaptive.should_continue_retrieval.
    rewrite Hs, Hi, Hl.
    split; [reflexivity|]. split; [eexists; reflexivity|].
    split; [reflexivity|]. split; [reflexivity|exact A].
Qed.

(** * Further properties of the router-first graph *)

Section RunInvariant.
Context {H State Patch : Type}.
Variable merge : State -> Patch -> State.
Variable g : Graph H State Patch.
Variable J : Run H State Patch -> Prop.
Hypothesis step_J : forall r, J r -> J (step merge g r).

Lemma run_for_inv n : forall r, J r -> J (run_for merge g n r).
Proof.
  induction n as [|n IH]; intros r Hr; [exact Hr|].
  simpl. apply IH, step_J, Hr.
Qed.

End RunInvariant.

Section AdaptiveSound.
Import Adaptive.
Variable c : Collaborators.

(** Every step of a run in good order is one of the transitions. *)
Lemma sound_step (r : Run Call GraphState GraphState) node :
  sound r ->
  status r = Running node ->
  exists p calls st,
    transition (state r) node p calls st
    /\ step merge (build_graph c) r
       = {| status := st; state := merge (state r) p;
            trace := trace r ++ [(node, p)]; log := log r ++ calls |}.
Proof.
  intros (Hi & [q Hq] & Hst) Hs. rewrite Hs in Hst.
  destruct Hst as [[-> Ht] | [-> | [[-> [ds Hd]] | [[-> [d [Hd Htr]]] | [-> [d Hd]]]]]].
  - eexists _, _, _. split; [|apply (step_web c r q Hs Hq)].
    apply t_web_search, Hq.
  - eexists _, _, _. split; [|apply (step_retrieve c r q Hs Hq)].
    apply t_retrieve, Hq.
  - rewrite (step_grade c r q ds Hs Hq Hd).
    destruct (survivors ds (verdicts c (log r) q ds)) as [|k ks] eqn:Ek.
    + eexists _, _, _. split; [|reflexivity]. apply t_grade_none; assumption.
    + eexists _, _, _. split; [|reflexivity]. apply t_grade_some; try assumption.
      rewrite <- Ek. apply survivors_sublist.
  - rewrite (step_generate c r q d Hs Hq Hd).
    unfold generation_label, generation_calls.
    destruct (decide (hallucination_grader c (log r ++ [AskGenerator d q]) d
                        (rag_chain c (log r) d q) = "yes")) as [Y|N].
    + destruct (decide (answer_grader c
                          ((log r ++ [AskGenerator d q])
                           ++ [AskHallucination d (rag_chain c (log r) d q)])
                          q (rag_chain c (log r) d q) = "yes")) as [Y'|N'].
      * eexists _, _, _. split; [apply t_useful; eassumption|].
        rewrite <- app_assoc. reflexivity.
      * eexists _, _, _. split; [apply t_not_useful; eassumption|].
        rewrite <- app_assoc. reflexivity.
    + eexists _, _, _. split; [apply t_regenerate; eassumption|].
      rewrite <- app_assoc. reflexivity.
  - eexists _, _, _. split; [|apply (step_transform c r q d Hs Hq Hd)].
    apply t_transform_query; assumption.
Qed.

Lemma transition_keeps_sound (r : Run Call GraphState GraphState) node p calls st :
  sound r ->
  status r = Running node ->
  transition (state r) node p calls st ->
  sound {| status := st; state := merge (state r) p;
           trace := trace r ++ [(node, p)]; log := log r ++ calls |}.
Proof.
  intros (Hi & [q0 Hq0] & Hst) Hs T. rewrite Hs in Hst.
  unfold sound. cbn [status state trace].
  inversion T; subst; cbn; (split; [exact Hi|]); (split; [eexists; reflexivity|]);
    unfold node_ready.
  - right. right. right. left. split; [reflexivity|]. eexists. split; reflexivity.
  - right. right. left. split; [reflexivity|]. eexists. reflexivity.
  - right. right. right. right. split; [reflexivity|]. eexists. reflexivity.
  - right. right. right. left. split; [reflexivity|]. eexists. split; reflexivity.
  - right. left. reflexivity.
  - right. right. right. left. split; [reflexivity|].
    destruct Hst as [[E _] | [E | [[E _] | [[_ [d' [Hd' Ht']]] | [E _]]]]];
      try discriminate E.
    exists d. split; [reflexivity|]. congruence.
  - right. right. right. right. split; [reflexivity|]. eexists. reflexivity.
  - exact I.
Qed.

Lemma step_keeps_sound (r : Run Call GraphState GraphState) :
  sound r -> sound (step merge (build_graph c) r).
Proof.
  intros Hr. destruct (status r) as [node| |f] eqn:Hs.
  - destruct (sound_step r node Hr Hs) as (p & calls & st & T & ->).
    eapply transition_keeps_sound; eassumption.
  - rewrite step_done by exact Hs. exact Hr.
  - rewrite (step_failed merge (build_graph c) r f Hs). exact Hr.
Qed.

Lemma route_question_some question h label :
  route_question c (inputs question) h = (Ok (Some label), h ++ [AskRouter question]) ->
  question_router c h question = label.
Proof.
  unfold route_question, bind, item, invoke. cbn [inputs Adaptive.question ret].
  destruct (decide (question_router c h question = "web_search")) as [->|];
    [intros E; injection E as <-; reflexivity|].
  destruct (decide (question_router c h question = "vectorstore")) as [->|];
    [intros E; injection E as <-; reflexivity|].
  intros E. discriminate E.
Qed.

Lemma init_cases question :
  let r := init (build_graph c) (inputs question) [] in
  state r = inputs question /\ trace r = [] /\ log r = [AskRouter question]
  /\ ((question_router c [] question = "web_search" /\ status r = Running "web_search")
      \/ (question_router c [] question = "vectorstore" /\ status r = Running "retrieve")
      \/ (question_router c [] question <> "web_search"
          /\ question_router c [] question <> "vectorstore"
          /\ status r = Failed (ConfigurationFault START None))).
Proof.
  cbv zeta. unfold init, advance, bind. rewrite branch_start.
  unfold route_question, bind, item, invoke. cbn [inputs Adaptive.question ret].
  destruct (decide (question_router c [] question = "web_search")) as [E|N1].
  { cbn. repeat split. left. split; [exact E|reflexivity]. }
  destruct (decide (question_router c [] question = "vectorstore")) as [E|N2].
  { cbn. repeat split. right. left. split; [exact E|reflexivity]. }
  cbn. repeat split. right. right. repeat split; assumption.
Qed.

Lemma init_sound question : sound (init (build_graph c) (inputs question) []).
Proof.
  destruct (init_cases question) as (Es & Et & _ & Hc).
  unfold sound. rewrite Es, Et. cbn [inputs iterations Adaptive.question].
  split; [reflexivity|]. split; [eexists; reflexivity|].
  destruct Hc as [[_ ->] | [[_ ->] | (_ & _ & ->)]].
  - left. split; reflexivity.
  - right. left. reflexivity.
  - split; reflexivity.
Qed.

Lemma stream_sound question n : sound (stream c question n).
Proof.
  unfold stream. apply run_for_inv; [apply step_keeps_sound|apply init_sound].
Qed.

End AdaptiveSound.

Section AdaptiveSafety.
Import Adaptive.
Variable c : Collaborators.

Lemma transition_not_failed s node p calls st f :
  transition s node p calls st -> st <> Failed f.
Proof. intros T. inversion T; discriminate. Qed.

Lemma stream_failed_at_start question n f :
  status (stream c question n) = Failed f ->
  status (init (build_graph c) (inputs question) []) = Failed f.
Proof.
  induction n as [|n IH]; [trivial|].
  rewrite stream_succ.
  destruct (status (stream c question n)) as [node| |f'] eqn:Hs.
  - destruct (sound_step c _ node (stream_sound c question n) Hs)
      as (p & calls & st & T & ->).
    cbn [status]. intros E. exfalso. exact (transition_not_failed _ _ _ _ _ f T E).
  - rewrite step_done by exact Hs. rewrite Hs. discriminate.
  - rewrite (step_failed merge (build_graph c) _ f' Hs). rewrite Hs. exact IH.
Qed.

Lemma transition_feeds_generator (r : Run Call GraphState GraphState) node p calls st :
  sound r ->
  status r = Running node ->
  transition (state r) node p calls st ->
  Forall generator_fed calls.
Proof.
  intros (_ & _ & Hst) Hs T. rewrite Hs in Hst.
  assert (G : node = "generate" -> forall d, documents (state r) = Some d -> truthy d = true).
  { intros -> d Hd.
    destruct Hst as [[E _] | [E | [[E _] | [[_ [d' [Hd' Ht']]] | [E _]]]]];
      try discriminate E.
    congruence. }
  inversion T; subst; try (repeat constructor; fail).
  - unfold grading_calls. apply Forall_map, Forall_forall. intros; exact I.
  - unfold grading_calls. apply Forall_map, Forall_forall. intros; exact I.
  - repeat constructor. cbn. apply G; [reflexivity|assumption].
  - repeat constructor. cbn. apply G; [reflexivity|assumption].
  - repeat constructor. cbn. apply G; [reflexivity|assumption].
Qed.

Lemma transition_follows s node p calls b :
  transition s node p calls (Running b) -> follows node b.
Proof.
  intros T. unfold follows. inversion T; subst; cbn; tauto.
Qed.

Lemma chained_snoc names a b :
  chained (names ++ [a]) -> follows a b -> chained ((names ++ [a]) ++ [b]).
Proof.
  induction names as [|x rest IH]; intros Hc Hf.
  - cbn. split; [exact Hf|exact I].
  - cbn [app] in *. destruct rest as [|y rest'].
    + cbn in *. destruct Hc as [Hxa _]. repeat split; assumption.
    + cbn [app chained] in *. destruct Hc as [Hxy Hc]. split; [exact Hxy|].
      apply IH; assumption.
Qed.

Lemma chained_lookup names : chained names ->
  forall i a b, names !! i = Some a -> names !! S i = Some b -> follows a b.
Proof.
  induction names as [|x rest IH]; intros Hc i a b Ha Hb; [discriminate Ha|].
  destruct rest as [|y rest']; [discriminate Hb|].
  destruct Hc as [Hxy Hc]. destruct i as [|i].
  - cbn in Ha, Hb. congruence.
  - apply (IH Hc i a b); assumption.
Qed.

End AdaptiveSafety.

Section AdaptiveInduction.
Import Adaptive.
Variable c : Collaborators.
Variable question : string.
Variable P : Run Call GraphState GraphState -> Prop.

Hypothesis P_init : P (init (build_graph c) (inputs question) []).
Hypothesis P_step :
  forall (r : Run Call GraphState GraphState) node p calls st,
    sound r -> P r -> status r = Running node ->
    transition (state r) node p calls st ->
    P {| status := st; state := merge (state r) p;
         trace := trace r ++ [(node, p)]; log := log r ++ calls |}.

(** A property of the entry into the graph that every transition keeps holds
    all along every run. *)
Lemma stream_induction n : P (stream c question n).
Proof.
  induction n as [|n IH]; [exact P_init|].
  rewrite stream_succ.
  destruct (status (stream c question n)) as [node| |f] eqn:Hs.
  - destruct (sound_step c _ node (stream_sound c question n) Hs)
      as (p & calls & st & T & ->).
    apply P_step; [apply stream_sound|exact IH|exact Hs|exact T].
  - rewrite step_done by exact Hs. exact IH.
  - rewrite (step_failed merge (build_graph c) _ f Hs). exact IH.
Qed.

End AdaptiveInduction.

(** X2.  The generator is never asked to answer from nothing: in every run
    of the router-first graph each call to the generator carries a non-empty
    list of documents or the single Document of the web search. *)
Theorem generator_always_has_documents (c : Adaptive.Collaborators)
    (question : string) (n : nat) :
  Forall generator_fed (log (Adaptive.stream c question n)).
Proof.
  apply (stream_induction c question (fun r => Forall generator_fed (log r))).
  - destruct (init_cases c question) as (_ & _ & -> & _). repeat constructor.
  - intros r node p calls st Hr IH Hs T. cbn [log].
    apply Forall_app. split; [exact IH|].
    exact (transition_feeds_generator r node p calls st Hr Hs T).
Qed.

Lemma transition_grade_stores_list s node p calls st :
  transition s node p calls st -> node = "grade_documents" -> stores_list (node, p).
Proof.
  intros T ->. inversion T; subst; eexists; reflexivity.
Qed.

(** X1.  In every run of the router-first graph the state holds what the
    code reads next: the question is always present, nothing has written
    "iterations", and the node about to run finds the documents it reads --
    a list for grade_documents, documents that count as present for generate.
    Every grade_documents step stored a list, and the decision that follows it
    raises TypeError (on len) exactly on a single Document, so it did not
    raise.  The only configuration fault is the one at START, before any
    step, on a route that is neither "web_search" nor "vectorstore": the two
    other decisions answer declared labels only. *)
Theorem adaptive_state_holds_what_is_read (c : Adaptive.Collaborators)
    (question : string) (n : nat) :
  let r := Adaptive.stream c question n in
  (exists q, Adaptive.question (state r) = Some q)
  /\ Adaptive.iterations (state r) = None
  /\ (forall node, status r = Running node -> node_ready node (state r) (trace r))
  /\ Forall (fun e => e.1 = "grade_documents" -> stores_list e) (trace r)
  /\ (forall s h, Adaptive.decide_to_generate s h = (Raise (TypeError "len"), h)
                  <-> exists d, Adaptive.documents s = Some (Adaptive.DocOne d))
  /\ (forall node label, status r = Failed (ConfigurationFault node label) ->
        node = START /\ label = None /\ trace r = []
        /\ Adaptive.question_router c [] question <> "web_search"
        /\ Adaptive.question_router c [] question <> "vectorstore").
Proof.
  cbv zeta. destruct (stream_sound c question n) as (Hi & Hq & Hst).
  split; [exact Hq|]. split; [exact Hi|].
  split; [intros node E; rewrite E in Hst; exact Hst|].
  split; [|split].
  - apply (stream_induction c question
             (fun r => Forall (fun e => e.1 = "grade_documents" -> stores_list e)
                         (trace r))).
    + destruct (init_cases c question) as (_ & -> & _). constructor.
    + intros r node p calls st _ IH _ T. cbn [trace].
      apply Forall_app. split; [exact IH|].
      constructor; [|constructor].
      intros E. exact (transition_grade_stores_list _ _ _ _ _ T E).
  - intros s h.
    destruct (decide_to_generate_cases s h) as [[Hn E]|[[Hn E]|[Hn E]]]; rewrite E;
      split; intros H; try discriminate H; try reflexivity; try exact Hn.
    + destruct H as [d H]. destruct Hn as [Hn|Hn]; rewrite Hn in H; discriminate H.
    + destruct H as [d H]. destruct Hn as (d' & ds & Hn). rewrite Hn in H.
      discriminate H.
  - intros node label E. rewrite E in Hst. destruct Hst as [Ef Et].
    injection Ef as -> ->. split; [reflexivity|]. split; [reflexivity|].
    split; [exact Et|].
    apply stream_failed_at_start in E.
    destruct (init_cases c question) as (_ & _ & _ & Hc).
    destruct Hc as [[_ Hs] | [[_ Hs] | (N1 & N2 & _)]];
      [rewrite Hs in E; discriminate E|rewrite Hs in E; discriminate E|tauto].
Qed.

Lemma stream_chained (c : Adaptive.Collaborators) (question : string) (n : nat) :
  let r := Adaptive.stream c question n in
  chained (map fst (trace r))
  /\ (forall a p b, last (trace r) = Some (a, p) -> status r = Running b -> follows a b)
  /\ (trace r = [] -> status r = Running "web_search" \/ status r = Running "retrieve"
                      \/ exists f, status r = Failed f).
Proof.
  apply (stream_induction c question
           (fun r => chained (map fst (trace r))
                     /\ (forall a p b, last (trace r) = Some (a, p) ->
                                       status r = Running b -> follows a b)
                     /\ (trace r = [] ->
                         status r = Running "web_search" \/ status r = Running "retrieve"
                         \/ exists f, status r = Failed f))).
  - destruct (init_cases c question) as (_ & Et & _ & Hc). rewrite Et.
    split; [exact I|]. split; [intros a p b E; discriminate E|].
    intros _. destruct Hc as [[_ ->] | [[_ ->] | (_ & _ & ->)]]; eauto.
  - intros r node p calls st Hr (Hc & Hl & _) Hs T. cbn [trace status].
    split; [|split].
    + destruct (trace r) as [|e t] using rev_ind; [exact I|].
      destruct e as [a pa]. rewrite !map_app in *. cbn [map fst] in *.
      apply chained_snoc; [exact Hc|].
      apply (Hl a pa node); [apply last_snoc|exact Hs].
    + intros a p' b E Eb. rewrite last_snoc in E. injection E as <- <-.
      subst st. exact (transition_follows _ _ _ _ _ T).
    + intros E. destruct (trace r); discriminate E.
Qed.

(** X3.  The steps of every run of the router-first graph follow the edges
    of build_graph: the first step is web_search or retrieve, and each step is
    followed by one its node leads to -- retrieve by grade_documents,
    transform_query by retrieve, web_search by generate, grade_documents by
    transform_query or generate, generate by generate or transform_query. *)
Theorem adaptive_trace_follows_edges (c : Adaptive.Collaborators)
    (question : string) (n : nat) :
  let names := map fst (trace (Adaptive.stream c question n)) in
  chained names
  /\ (head names = None \/ head names = Some "web_search" \/ head names = Some "retrieve").
Proof.
  cbv zeta. split; [apply stream_chained|].
  revert n. induction n as [|n IH].
  - left. destruct (init_cases c question) as (_ & Et & _).
    unfold Adaptive.stream. cbn [run_for]. rewrite Et. reflexivity.
  - rewrite stream_succ.
    destruct (status (Adaptive.stream c question n)) as [node| |f] eqn:Hs.
    + destruct (sound_step c _ node (stream_sound c question n) Hs)
        as (p & calls & st & T & ->).
      cbn [trace]. rewrite map_app.
      destruct (trace (Adaptive.stream c question n)) as [|e t] eqn:Et.
      * destruct (stream_chained c question n) as (_ & _ & H0).
        destruct (H0 Et) as [E | [E | [f E]]]; rewrite Hs in E;
          [injection E as ->; right; left; reflexivity
          |injection E as ->; right; right; reflexivity
          |discriminate E].
      * cbn in IH |- *. exact IH.
    + rewrite step_done by exact Hs. exact IH.
    + rewrite (step_failed Adaptive.merge (Adaptive.build_graph c) _ f Hs). exact IH.
Qed.

Lemma nothing_leads_to_web_search a : ~ follows a "web_search".
Proof.
  unfold follows. cbn. intros H.
  repeat (destruct H as [H|H]; [discriminate H|]). exact H.
Qed.

(** X4.  The web search runs at most once in a run of the router-first graph,
    and only as its first step: no later step is web_search, whatever the
    graders answer. *)
Theorem web_search_only_first (c : Adaptive.Collaborators) (question : string)
    (n i : nat) :
  map fst (trace (Adaptive.stream c question n)) !! S i <> Some "web_search".
Proof.
  intros E.
  destruct (stream_chained c question n) as (Hc & _).
  destruct (map fst (trace (Adaptive.stream c question n)) !! i) as [a|] eqn:Ea.
  - exact (nothing_leads_to_web_search a (chained_lookup _ Hc i a _ Ea E)).
  - apply lookup_ge_None in Ea. apply lookup_lt_Some in E. lia.
Qed.

(** X5.  should_continue_retrieval answers "stop" exactly when max_iterations
    is at most the value under "iterations" (0 when the key is missing); no
    node ever writes that key, so on the state of any run of the router-first
    graph it answers "continue" for every positive max_iterations. *)
Theorem should_continue_never_stops (c : Adaptive.Collaborators) (question : string)
    (n : nat) (s : Adaptive.GraphState) (max_iterations : Z) :
  (0 < max_iterations)%Z ->
  (Adaptive.should_continue_retrieval s max_iterations = "stop"
   <-> (max_iterations <= default 0 (Adaptive.iterations s))%Z)
  /\ Adaptive.iterations (state (Adaptive.stream c question n)) = None
  /\ Adaptive.should_continue_retrieval (state (Adaptive.stream c question n))
       max_iterations = "continue".
Proof.
  intros Hpos.
  destruct (stream_sound c question n) as (Hi & _).
  split; [|split; [exact Hi|]].
  - unfold Adaptive.should_continue_retrieval.
    destruct (Z.leb_spec max_iterations (default 0%Z (Adaptive.iterations s)));
      split; intros; try reflexivity; try lia; discriminate.
  - unfold Adaptive.should_continue_retrieval. rewrite Hi. cbn [default].
    destruct (Z.leb_spec max_iterations 0); [lia|reflexivity].
Qed.

Lemma should_continue_never_stops_witness :
  (Adaptive.should_continue_retrieval (full_state "q" (Adaptive.DocList []) "g")
     Adaptive.MAX_ITERATIONS = "stop"
   <-> (Adaptive.MAX_ITERATIONS
        <= default 0 (Adaptive.iterations (full_state "q" (Adaptive.DocList []) "g")))%Z)
  /\ Adaptive.iterations (state (Adaptive.stream never_relevant "q" 7)) = None
  /\ Adaptive.should_continue_retrieval (state (Adaptive.stream never_relevant "q" 7))
       Adaptive.MAX_ITERATIONS = "continue".
Proof.
  apply (should_continue_never_stops never_relevant "q" 7
           (full_state "q" (Adaptive.DocList []) "g") Adaptive.MAX_ITERATIONS).
  reflexivity.
Defined.

Section AdaptiveNodes.
Import Adaptive.
Variable c : Collaborators.

Lemma adaptive_lookup_node name (f : GraphState -> Eff Call GraphState) :
  nodes (build_graph c) !! name = Some f ->
  (name = "web_search" /\ f = web_search c)
  \/ (name = "retrieve" /\ f = retrieve c)
  \/ (name = "grade_documents" /\ f = grade_documents c)
  \/ (name = "generate" /\ f = generate c)
  \/ (name = "transform_query" /\ f = transform_query c).
Proof.
  unfold build_graph. cbn [nodes]. intros E.
  repeat (apply lookup_insert_Some in E; destruct E as [[<- <-]|[_ E]]; [tauto|]).
  rewrite lookup_empty in E. discriminate E.
Qed.

End AdaptiveNodes.

(** X6.  The nodes of the router-first graph read the state before they call
    any service.  Without a question every node raises KeyError for
    "question"; with a question but no documents, generate, grade_documents
    and transform_query raise KeyError for "documents"; and grade_documents
    given the single Document of a web search instead of a list raises
    AttributeError on page_content.  In each case no call was made: the
    history is as it was. *)
Theorem nodes_read_the_state_first (c : Adaptive.Collaborators) (name : string)
    (f : Adaptive.GraphState -> Eff Adaptive.Call Adaptive.GraphState)
    (s : Adaptive.GraphState) (h : list Adaptive.Call) :
  nodes (Adaptive.build_graph c) !! name = Some f ->
  (Adaptive.question s = None -> f s h = (Raise (KeyError "question"), h))
  /\ (Adaptive.question s <> None -> Adaptive.documents s = None ->
      name <> "retrieve" -> name <> "web_search" ->
      f s h = (Raise (KeyError "documents"), h))
  /\ (Adaptive.question s <> None -> name = "grade_documents" ->
      forall d, Adaptive.documents s = Some (Adaptive.DocOne d) ->
      f s h = (Raise (AttributeError "page_content"), h)).
Proof.
  intros Hn. apply adaptive_lookup_node in Hn.
  split; [|split].
  - intros Hq.
    destruct Hn as [[-> ->] | [[-> ->] | [[-> ->] | [[-> ->] | [-> ->]]]]];
      unfold Adaptive.web_search, Adaptive.retrieve, Adaptive.grade_documents,
        Adaptive.generate, Adaptive.transform_query, bind, item;
      rewrite Hq; reflexivity.
  - intros Hq Hd N1 N2.
    destruct (Adaptive.question s) as [q|] eqn:Eq; [|contradiction].
    destruct Hn as [[-> ->] | [[-> ->] | [[-> ->] | [[-> ->] | [-> ->]]]]];
      try contradiction;
      unfold Adaptive.grade_documents, Adaptive.generate, Adaptive.transform_query,
        bind, item;
      rewrite Eq, Hd; reflexivity.
  - intros Hq -> d Hd.
    destruct (Adaptive.question s) as [q|] eqn:Eq; [|contradiction].
    destruct Hn as [[E _] | [[E _] | [[_ ->] | [[E _] | [E _]]]]];
      try discriminate E.
    unfold Adaptive.grade_documents, bind, item. rewrite Eq, Hd. reflexivity.
Qed.

Lemma nodes_read_the_state_first_witness :
  let s := full_state "q" (Adaptive.DocOne (doc "web")) "g" in
  let f := Adaptive.grade_documents accepting in
  let h := [Adaptive.AskRouter "q"] in
  (Adaptive.question s = None -> f s h = (Raise (KeyError "question"), h))
  /\ (Adaptive.question s <> None -> Adaptive.documents s = None ->
      "grade_documents" <> "retrieve" -> "grade_documents" <> "web_search" ->
      f s h = (Raise (KeyError "documents"), h))
  /\ (Adaptive.question s <> None -> "grade_documents" = "grade_documents" ->
      forall d, Adaptive.documents s = Some (Adaptive.DocOne d) ->
      f s h = (Raise (AttributeError "page_content"), h)).
Proof.
  apply (nodes_read_the_state_first accepting "grade_documents"
           (Adaptive.grade_documents accepting)
           (full_state "q" (Adaptive.DocOne (doc "web")) "g")
           [Adaptive.AskRouter "q"]).
  reflexivity.
Defined.

(** ** tools.py: the text of the results *)

Lemma format_entry_not_empty i result rest :
  String.concat (Adaptive.nl +:+ Adaptive.nl) (Adaptive.format_entry i result :: rest)
  <> EmptyString.
Proof.
  unfold Adaptive.format_entry. cbn [String.concat].
  destruct rest; cbn; discriminate.
Qed.

(** X7.  The text built from the search results is empty exactly when there
    are no results; missing "content" or "url" keys of a result do not make
    its entry empty. *)
Theorem _format_results_empty_iff (results : list (gmap string string)) :
  Adaptive._format_results results = EmptyString <-> results = [].
Proof.
  rewrite _format_results_spec. unfold formatted. split.
  - destruct results as [|r rest]; [reflexivity|].
    intros E. exfalso. cbn [imap] in E.
    exact (format_entry_not_empty 1 r _ E).
  - intros ->. reflexivity.
Qed.

(** ** workflow.py: run_with_details *)

Lemma details_loop_lists outputs : Forall stores_list outputs -> forall acc fs,
  Adaptive.details_loop outputs acc fs
  = Ok (acc ++ map (fun e => Adaptive.trace_entry e.1 e.2) outputs,
        match last outputs with Some e => Some e.2 | None => fs end).
Proof.
  induction 1 as [|[name st] rest [ds Hd] _ IH]; intros acc fs.
  - cbn. rewrite app_nil_r. reflexivity.
  - cbn [Adaptive.details_loop]. cbn [snd] in Hd. rewrite Hd.
    assert (E : forall k : Result (list Adaptive.TraceEntry * option Adaptive.GraphState),
              (if Adaptive.bool_documents (Some (Adaptive.DocList ds))
               then match Adaptive.len (default (Adaptive.DocList [])
                                          (Some (Adaptive.DocList ds))) with
                    | Ok _ => k
                    | Raise e => Raise e
                    end
               else k) = k).
    { intros k. destruct ds; reflexivity. }
    rewrite E, IH, <- app_assoc. cbn [map app fst snd].
    f_equal. f_equal. rewrite last_cons. destruct (last rest); reflexivity.
Qed.

Lemma details_loop_single name st d rest acc fs :
  Adaptive.documents st = Some (Adaptive.DocOne d) ->
  Adaptive.details_loop ((name, st) :: rest) acc fs = Raise (TypeError "len").
Proof. intros Hd. cbn [Adaptive.details_loop]. rewrite Hd. reflexivity. Qed.

Lemma transition_patch_in_order s node p calls st :
  transition s node p calls st -> patch_in_order (node, p).
Proof.
  intros T. unfold patch_in_order.
  inversion T; subst; cbn; split; congruence.
Qed.

Lemma stream_patches_in_order (c : Adaptive.Collaborators) (question : string) (n : nat) :
  Forall patch_in_order (trace (Adaptive.stream c question n)).
Proof.
  apply (stream_induction c question (fun r => Forall patch_in_order (trace r))).
  - destruct (init_cases c question) as (_ & -> & _). constructor.
  - intros r node p calls st _ IH _ T. cbn [trace].
    apply Forall_app. split; [exact IH|].
    constructor; [exact (transition_patch_in_order _ _ _ _ _ T)|constructor].
Qed.

(** A run routed to the vector store only ever stores lists. *)
Lemma vectorstore_run_stores_lists (c : Adaptive.Collaborators) (question : string)
    (n : nat) :
  Adaptive.question_router c [] question = "vectorstore" ->
  Forall stores_list (trace (Adaptive.stream c question n)).
Proof.
  intros Hv.
  enough (H : Forall stores_list (trace (Adaptive.stream c question n))
              /\ (forall d, Adaptive.documents (state (Adaptive.stream c question n)) = Some d ->
                            exists ds, d = Adaptive.DocList ds)
              /\ status (Adaptive.stream c question n) <> Running "web_search")
    by exact (proj1 H).
  apply (stream_induction c question
           (fun r => Forall stores_list (trace r)
                     /\ (forall d, Adaptive.documents (state r) = Some d ->
                                   exists ds, d = Adaptive.DocList ds)
                     /\ status r <> Running "web_search")).
  - destruct (init_cases c question) as (Es & Et & _ & Hc). rewrite Es, Et.
    split; [constructor|]. split; [intros d E; discriminate E|].
    destruct Hc as [[E _] | [[_ ->] | (_ & _ & ->)]];
      [rewrite Hv in E; discriminate E|discriminate|discriminate].
  - intros r node p calls st _ (Ht & Hd & Hw) Hs T.
    cbn [trace state status].
    assert (L : stores_list (node, p) /\ st <> Running "web_search").
    { inversion T; subst; (split; [|discriminate]);
        try (eexists; reflexivity).
      - exfalso. exact (Hw Hs).
      - destruct (Hd _ ltac:(eassumption)) as [ds' ->]. eexists. reflexivity.
      - destruct (Hd _ ltac:(eassumption)) as [ds' ->]. eexists. reflexivity.
      - destruct (Hd _ ltac:(eassumption)) as [ds' ->]. eexists. reflexivity.
      - destruct (Hd _ ltac:(eassumption)) as [ds' ->]. eexists. reflexivity. }
    destruct L as [[ds L] Hst].
    split; [apply Forall_app; split; [exact Ht|constructor; [exists ds; exact L|constructor]]|].
    split; [|exact Hst].
    intros d E. cbn [Adaptive.merge Adaptive.documents] in E. cbn [snd] in L.
    rewrite L in E. injection E as <-. eexists. reflexivity.
Qed.

(** The first output of a run routed to the web search holds the single
    Document of the search. *)
Lemma web_run_first_output (c : Adaptive.Collaborators) (question : string) (n : nat) :
  Adaptive.question_router c [] question = "web_search" ->
  trace (Adaptive.stream c question n) <> [] ->
  exists d q t,
    trace (Adaptive.stream c question n)
    = ("web_search", Adaptive.patch (Some (Adaptive.DocOne d)) (Some q) None) :: t.
Proof.
  intros Hw Hne.
  enough (H : (trace (Adaptive.stream c question n) = []
               /\ forall node, status (Adaptive.stream c question n) = Running node ->
                               node = "web_search")
              \/ exists d q t,
                   trace (Adaptive.stream c question n)
                   = ("web_search", Adaptive.patch (Some (Adaptive.DocOne d)) (Some q) None)
                     :: t)
    by (destruct H as [[E _]|H]; [contradiction|exact H]).
  apply (stream_induction c question
           (fun r => (trace r = [] /\ forall node, status r = Running node ->
                                                   node = "web_search")
                     \/ exists d q t,
                          trace r
                          = ("web_search",
                             Adaptive.patch (Some (Adaptive.DocOne d)) (Some q) None) :: t)).
  - left. destruct (init_cases c question) as (_ & Et & _ & Hc).
    split; [exact Et|]. intros node E.
    destruct Hc as [[_ Hs] | [[Hr _] | (N1 & _)]];
      [rewrite Hs in E; injection E as <-; reflexivity
      |rewrite Hw in Hr; discriminate Hr
      |contradiction].
  - intros r node p calls st _ IH Hs T. right. cbn [trace].
    destruct IH as [[Et Hn] | (d & q & t & Et)]; rewrite Et.
    + pose proof (Hn node Hs) as ->. inversion T; subst.
      eexists _, _, []. reflexivity.
    + eexists d, q, _. reflexivity.
Qed.

Lemma bool_generation_true v :
  Adaptive.bool_generation v = true -> v <> None.
Proof. destruct v; [discriminate|discriminate]. Qed.

(** X8.  Once an output has been streamed, run_with_details depends on the
    route.  On a run routed to the web search it raises TypeError at the
    first output, the single Document of the search having no len, although
    run returns the final state of such a run when it reaches END.  On a run
    routed to the vector store that reached END it returns the question as it
    was asked, one trace entry per executed step in order, the final state
    that run returns, and as answer the generator's last answer (never the
    fallback text); only entries of generate steps can have has_generation
    set, and every entry holds a question; format_final_output of that final
    state shows the question of the last generation and that answer. *)
Theorem run_with_details_by_route (c : Adaptive.Collaborators)
    (question : string) (n : nat) :
  trace (Adaptive.stream c question n) <> [] ->
  (Adaptive.question_router c [] question = "web_search" ->
   Adaptive.run_with_details c question n = Some (Raise (TypeError "len"))
   /\ (status (Adaptive.stream c question n) = Done ->
       exists s, Adaptive.run c question n = Some (Ok (Some s))))
  /\ (Adaptive.question_router c [] question = "vectorstore" ->
      status (Adaptive.stream c question n) = Done ->
      exists d g q',
        Adaptive.run_with_details c question n = Some (Ok d)
        /\ Adaptive.details_question d = question
        /\ Adaptive.run c question n = Some (Ok (Some (Adaptive.final_state d)))
        /\ Adaptive.generation (Adaptive.final_state d) = Some g
        /\ Adaptive.answer d = g
        /\ map Adaptive.node (Adaptive.execution_trace d)
           = map fst (trace (Adaptive.stream c question n))
        /\ Forall (fun e => Adaptive.has_generation e = true -> Adaptive.node e = "generate")
             (Adaptive.execution_trace d)
        /\ Forall (fun e => Adaptive.trace_question e <> None) (Adaptive.execution_trace d)
        /\ Adaptive.question (Adaptive.final_state d) = Some q'
        /\ Adaptive.format_final_output (Adaptive.final_state d)
           = Adaptive.nl +:+ "问题：" +:+ q' +:+ Adaptive.nl +:+ Adaptive.nl
             +:+ "答案：" +:+ Adaptive.nl +:+ g +:+ Adaptive.nl).
Proof.
  intros Hne. split.
  - intros Hw.
    destruct (web_run_first_output c question n Hw Hne) as (d & q & t & Et).
    split.
    + unfold Adaptive.run_with_details. cbv zeta. rewrite Et.
      rewrite (details_loop_single _ _ d) by reflexivity. reflexivity.
    + intros Hd. unfold Adaptive.run, last_output. cbv zeta. rewrite Hd.
      destruct (last (trace (Adaptive.stream c question n))) as [e|] eqn:El.
      * exists e.2. reflexivity.
      * apply last_None in El. contradiction.
  - intros Hv Hd.
    pose proof (stream_patches_in_order c question n) as Hp.
    pose proof (vectorstore_run_stores_lists c question n Hv) as Hl.
    assert (E : ended_by_generate c (Adaptive.stream c question n)).
    { apply run_reaches_done; [apply init_not_done|exact Hd]. }
    destruct E as (t & h & d0 & q' & Ht & _ & _).
    unfold Adaptive.run_with_details, Adaptive.run, last_output. cbv zeta.
    rewrite (details_loop_lists _ Hl), Hd, Ht, last_snoc.
    cbn [snd fmap option_fmap option_map].
    eexists _, (Adaptive.rag_chain c h d0 q'), q'.
    split; [reflexivity|]. cbn.
    split; [reflexivity|]. split; [reflexivity|]. split; [reflexivity|].
    split; [reflexivity|].
    rewrite <- Ht.
    split; [rewrite map_map; reflexivity|].
    split; [|split; [|split; reflexivity]].
    + apply Forall_map. eapply Forall_impl; [exact Hp|].
      intros [name p] [Hg _] Hb. cbn in *.
      destruct (decide (name = "generate")) as [->|N]; [reflexivity|].
      rewrite (Hg N) in Hb. discriminate Hb.
    + apply Forall_map. eapply Forall_impl; [exact Hp|].
      intros [name p] [_ Hq]. exact Hq.
Qed.

Lemma run_with_details_by_route_witness :
  Adaptive.run_with_details via_web "q" 2 = Some (Raise (TypeError "len"))
  /\ (exists s, Adaptive.run via_web "q" 2 = Some (Ok (Some s)))
  /\ (exists d g,
        Adaptive.run_with_details picky "q" 3 = Some (Ok d)
        /\ Adaptive.generation (Adaptive.final_state d) = Some g
        /\ Adaptive.answer d = g).
Proof.
  pose proof (run_with_details_by_route via_web "q" 2
                ltac:(vm_compute; discriminate)) as [Hw _].
  pose proof (run_with_details_by_route picky "q" 3
                ltac:(vm_compute; discriminate)) as [_ Hv].
  destruct (Hw eq_refl) as [E1 E2].
  destruct (Hv eq_refl ltac:(vm_compute; reflexivity))
    as (d & g & q' & E3 & _ & _ & E4 & E5 & _).
  split; [exact E1|].
  split; [apply E2; vm_compute; reflexivity|].
  exists d, g. split; [exact E3|]. split; [exact E4|exact E5].
Defined.

Section AgenticSound.
Import Agentic.
Variable c : Collaborators.

Lemma agentic_node_agent : nodes (build_workflow c) !! "agent" = Some (agent c).
Proof. reflexivity. Qed.
Lemma agentic_node_retrieve : nodes (build_workflow c) !! "retrieve" = Some (tool_node c).
Proof. reflexivity. Qed.
Lemma agentic_node_rewrite : nodes (build_workflow c) !! "rewrite" = Some (rewrite c).
Proof. reflexivity. Qed.
Lemma agentic_node_generate : nodes (build_workflow c) !! "generate" = Some (generate c).
Proof. reflexivity. Qed.

Lemma advance_agent ms response h :
  advance (build_workflow c) "agent" {| messages := ms ++ [response] |} h
  = (Ok (match tool_calls response with [] => END | _ :: _ => "retrieve" end), h).
Proof.
  unfold advance, bind.
  change (branches (build_workflow c) !! "agent")
    with (Some (tools_condition,
                Some (<["tools" := "retrieve"]> (<[END := END]> (∅ : gmap string string))))).
  cbv beta iota. unfold tools_condition, bind. cbn [messages].
  rewrite last_message_snoc. destruct (tool_calls response); reflexivity.
Qed.

Lemma advance_retrieve m rest h :
  let docs := content (default m (last rest)) in
  advance (build_workflow c) "retrieve" {| messages := m :: rest |} h
  = (Ok (if decide (grader c h (content m) docs = "yes") then "generate" else "rewrite"),
     h ++ [AskGrader (content m) docs]).
Proof.
  intros docs. unfold advance, bind.
  change (branches (build_workflow c) !! "retrieve")
    with (Some (grade_documents c, @None (gmap string string))).
  cbv beta iota. rewrite grade_documents_call. fold docs.
  destruct (decide (grader c h (content m) docs = "yes")); reflexivity.
Qed.

(** Every step of a run in good order is one of the transitions. *)
Lemma agentic_sound_step (r : Run Call AgentState AgentState) node :
  agentic_sound r ->
  status r = Running node ->
  exists p calls st,
    agentic_transition node p st
    /\ step merge (build_workflow c) r
       = {| status := st; state := merge (state r) {| messages := p |};
            trace := trace r ++ [(node, {| messages := p |})];
            log := log r ++ calls |}.
Proof.
  intros [Hne Hst] Hs. rewrite Hs in Hst.
  assert (Es : exists m rest, state r = {| messages := m :: rest |}).
  { destruct (state r) as [[|m rest]]; [contradiction|eauto]. }
  destruct Es as (m & rest & Es).
  cbn [In] in Hst. destruct Hst as [<- | [<- | [<- | [<- | []]]]].
  - pose (response := agent_model c (log r) (m :: rest)).
    exists [response], [AskAgent (m :: rest)].
    destruct (tool_calls response) as [|t ts] eqn:Et.
    + exists Done. split; [apply a_agent_end; exact Et|].
      etransitivity; [eapply step_running with (dest := END);
        [exact Hs|apply agentic_node_agent|rewrite Es; reflexivity|]|reflexivity].
      rewrite Es. unfold merge. cbn [messages].
      rewrite advance_agent. fold response. rewrite Et. reflexivity.
    + exists (Running "retrieve"). split; [apply a_agent_tools; rewrite Et; discriminate|].
      etransitivity; [eapply step_running with (dest := "retrieve");
        [exact Hs|apply agentic_node_agent|rewrite Es; reflexivity|]|reflexivity].
      rewrite Es. unfold merge. cbn [messages].
      rewrite advance_agent. fold response. rewrite Et. reflexivity.
  - destruct (call_tools_spec c (tool_calls (default m (last rest))) (log r)) as [outs E].
    assert (Et : tool_node c (state r) (log r)
                 = (Ok {| messages := outs |},
                    log r ++ map AskTool (tool_calls (default m (last rest))))).
    { unfold tool_node, bind. rewrite Es. cbn [messages].
      rewrite last_message_cons, E. reflexivity. }
    pose (docs := content (default m (last (rest ++ outs)))).
    pose (h := log r ++ map AskTool (tool_calls (default m (last rest)))).
    exists outs, (map AskTool (tool_calls (default m (last rest)))
                  ++ [AskGrader (content m) docs]).
    destruct (decide (grader c h (content m) docs = "yes")) as [Y|N].
    + exists (Running "generate"). split; [apply a_retrieve_generate|].
      rewrite app_assoc.
      etransitivity; [eapply step_running with (dest := "generate");
        [exact Hs|apply agentic_node_retrieve|exact Et|]|reflexivity].
      rewrite Es. unfold merge. cbn [messages app].
      rewrite advance_retrieve. fold docs h.
      destruct (decide (grader c h (content m) docs = "yes")); [reflexivity|contradiction].
    + exists (Running "rewrite"). split; [apply a_retrieve_rewrite|].
      rewrite app_assoc.
      etransitivity; [eapply step_running with (dest := "rewrite");
        [exact Hs|apply agentic_node_retrieve|exact Et|]|reflexivity].
      rewrite Es. unfold merge. cbn [messages app].
      rewrite advance_retrieve. fold docs h.
      destruct (decide (grader c h (content m) docs = "yes")); [contradiction|reflexivity].
  - eexists _, _, (Running "agent"). split; [apply a_rewrite|].
    etransitivity; [eapply step_running with (dest := "agent");
      [exact Hs|apply agentic_node_rewrite|rewrite Es; apply rewrite_call
      |apply advance_edge; reflexivity]|reflexivity].
  - eexists _, _, Done. split; [apply a_generate|].
    etransitivity; [eapply step_running with (dest := END);
      [exact Hs|apply agentic_node_generate|rewrite Es; apply generate_call
      |apply advance_edge; reflexivity]|reflexivity].
Qed.

Lemma agentic_transition_keeps_sound (r : Run Call AgentState AgentState) node p calls st :
  agentic_sound r ->
  agentic_transition node p st ->
  agentic_sound {| status := st; state := merge (state r) {| messages := p |};
                   trace := trace r ++ [(node, {| messages := p |})];
                   log := log r ++ calls |}.
Proof.
  intros [Hne _] T. split.
  - cbn [state]. unfold merge. cbn [messages].
    destruct (messages (state r)); [contradiction|discriminate].
  - cbn [status]. inversion T; subst; cbn; tauto.
Qed.

Lemma agentic_init question :
  init (build_workflow c) (inputs question) []
  = {| status := Running "agent"; state := inputs question; trace := []; log := [] |}.
Proof. reflexivity. Qed.

Lemma agentic_stream_sound question n : agentic_sound (stream c question n).
Proof.
  unfold stream. apply run_for_inv.
  - intros r Hr. destruct (status r) as [node| |f] eqn:Hs.
    + destruct (agentic_sound_step r node Hr Hs) as (p & calls & st & T & ->).
      apply agentic_transition_keeps_sound; assumption.
    + rewrite step_done by exact Hs. exact Hr.
    + rewrite (step_failed merge (build_workflow c) r f Hs). exact Hr.
  - rewrite agentic_init. split; [discriminate|]. cbn. tauto.
Qed.

End AgenticSound.

Section AgenticInduction.
Import Agentic.
Variable c : Collaborators.
Variable question : string.
Variable P : Run Call AgentState AgentState -> Prop.

Hypothesis P_init :
  P {| status := Running "agent"; state := inputs question; trace := []; log := [] |}.
Hypothesis P_step :
  forall (r : Run Call AgentState AgentState) node p calls st,
    agentic_sound r -> P r -> status r = Running node ->
    agentic_transition node p st ->
    P {| status := st; state := merge (state r) {| messages := p |};
         trace := trace r ++ [(node, {| messages := p |})]; log := log r ++ calls |}.

Lemma agentic_stream_induction n : P (stream c question n).
Proof.
  induction n as [|n IH]; [exact P_init|].
  rewrite agentic_stream_succ.
  destruct (status (stream c question n)) as [node| |f] eqn:Hs.
  - destruct (agentic_sound_step c _ node (agentic_stream_sound c question n) Hs)
      as (p & calls & st & T & ->).
    apply P_step; [apply agentic_stream_sound|exact IH|exact Hs|exact T].
  - rewrite step_done by exact Hs. exact IH.
  - rewrite (step_failed merge (build_workflow c) _ f Hs). exact IH.
Qed.

End AgenticInduction.

Section AgenticShape.
Import Agentic.
Variable c : Collaborators.

Lemma stream_trace_shape question n : agentic_trace_shape (stream c question n).
Proof.
  apply (agentic_stream_induction c question agentic_trace_shape).
  - constructor.
  - intros r node p calls st _ IH Hs T.
    unfold agentic_trace_shape in *. rewrite Hs in IH. cbn [status trace].
    inversion T; subst.
    + apply Forall_app. split; [exact IH|repeat constructor; discriminate].
    + left. exists (trace r), response. repeat split; assumption.
    + apply Forall_app. split; [exact IH|repeat constructor; discriminate].
    + apply Forall_app. split; [exact IH|repeat constructor; discriminate].
    + apply Forall_app. split; [exact IH|repeat constructor; discriminate].
    + right. exists answer, (trace r). split; [reflexivity|exact IH].
Qed.

Lemma collect_answer_no_generate t : forall acc,
  no_generate t -> collect_answer t acc = Ok acc.
Proof.
  induction t as [|[key value] rest IH]; intros acc Hn; [reflexivity|].
  inversion Hn as [|? ? Hk Hrest]; subst. cbn [collect_answer].
  destruct (decide (key = "generate")); [contradiction|]. apply IH, Hrest.
Qed.

Lemma collect_answer_app t1 t2 acc :
  collect_answer (t1 ++ t2) acc
  = match collect_answer t1 acc with
    | Ok a => collect_answer t2 a
    | Raise f => Raise f
    end.
Proof.
  revert acc. induction t1 as [|[key value] rest IH]; intros acc; [reflexivity|].
  cbn [app collect_answer].
  destruct (decide (key = "generate")); [|apply IH].
  destruct (messages value); [reflexivity|apply IH].
Qed.

Lemma fallback_not_empty : fallback <> EmptyString.
Proof. discriminate. Qed.

End AgenticShape.

(** X9.  In every run of the agent-first graph a generation, if there is
    one, is the last step and ends the run: while the run goes on, no generate
    step has been executed; a finished run ended either with a plain answer of
    the agent (no tool call requested) or with the one and only generate
    step. *)
Theorem agentic_generates_at_most_once (c : Agentic.Collaborators)
    (question : string) (n : nat) :
  agentic_trace_shape (Agentic.stream c question n)
  /\ length (filter (fun e => e.1 = "generate") (trace (Agentic.stream c question n))) <= 1.
Proof.
  pose proof (stream_trace_shape c question n) as Ht. split; [exact Ht|].
  assert (F : forall t, no_generate t -> filter (fun e => e.1 = "generate") t = []).
  { intros t Hn. induction Hn as [|e t He _ IH]; [reflexivity|].
    rewrite filter_cons_False by exact He. exact IH. }
  unfold agentic_trace_shape in Ht.
  destruct (status (Agentic.stream c question n)).
  - rewrite (F _ Ht). cbn. lia.
  - destruct Ht as [(t' & response & -> & _ & Hn) | (answer & t' & -> & Hn)];
      rewrite filter_app, (F _ Hn).
    + rewrite filter_cons_False by discriminate. cbn. lia.
    + rewrite filter_cons_True by reflexivity. cbn. lia.
  - rewrite (F _ Ht). cbn. lia.
Qed.

(** X10.  In every run of the agent-first graph the transcript is never
    empty, so the reads of messages[0] and messages[-1] find a message; the
    node about to run is one of the four nodes of build_workflow; no decision
    answers a label the table does not declare, so there is no configuration
    fault; and the loop of query (on an initialised system) finds the message
    it reads in every generate output collected so far. *)
Theorem agentic_transcript_never_empty (c : Agentic.Collaborators) (question : string)
    (n : nat) :
  let r := Agentic.stream c question n in
  Agentic.messages (state r) <> []
  /\ (forall node, status r = Running node ->
                   In node ["agent"; "retrieve"; "rewrite"; "generate"])
  /\ (forall node label, status r <> Failed (ConfigurationFault node label))
  /\ (exists a, Agentic.collect_answer (trace r) None = Ok a).
Proof.
  cbv zeta.
  destruct (agentic_stream_sound c question n) as [Hm Hs].
  pose proof (stream_trace_shape c question n) as Ht.
  split; [exact Hm|].
  split; [intros node E; rewrite E in Hs; exact Hs|].
  split; [intros node label E; rewrite E in Hs; exact Hs|].
  unfold agentic_trace_shape in Ht.
  destruct (status (Agentic.stream c question n)) as [node| |f].
  - rewrite (collect_answer_no_generate _ _ Ht). eexists. reflexivity.
  - destruct Ht as [(t' & response & -> & _ & Hn) | (answer & t' & -> & Hn)];
      rewrite collect_answer_app, (collect_answer_no_generate _ _ Hn); cbn;
      eexists; reflexivity.
  - rewrite (collect_answer_no_generate _ _ Ht). eexists. reflexivity.
Qed.

(** X11.  When the run of the agent-first graph has finished, query (of an
    initialised system) returns the text of the generation if the run ended with a generate step whose
    answer is not empty, and the fallback text otherwise (the agent answered
    by itself, or the generation is empty); it never returns the empty
    string. *)
Theorem query_answer (c : Agentic.Collaborators) (question : string) (n : nat) :
  status (Agentic.stream c question n) = Done ->
  exists a,
    Agentic.query c question n = Some (Ok a)
    /\ a <> EmptyString
    /\ ((ended_by_agent (trace (Agentic.stream c question n)) /\ a = Agentic.fallback)
        \/ (exists answer,
              ended_by_generation (trace (Agentic.stream c question n)) answer
              /\ a = if decide (answer = EmptyString) then Agentic.fallback else answer)).
Proof.
  intros Hd. pose proof (stream_trace_shape c question n) as Ht.
  unfold agentic_trace_shape in Ht. rewrite Hd in Ht.
  unfold Agentic.query. cbv zeta. rewrite Hd.
  destruct Ht as [Ha | [answer Hg]].
  - exists Agentic.fallback.
    destruct Ha as (t' & response & E & Hr & Hn).
    split; [|split; [apply fallback_not_empty|left; split;
      [exists t', response; repeat split; assumption|reflexivity]]].
    rewrite E, collect_answer_app, (collect_answer_no_generate _ _ Hn). reflexivity.
  - exists (if decide (answer = EmptyString) then Agentic.fallback else answer).
    destruct Hg as (t' & E & Hn).
    split; [|split; [|right; exists answer; split; [exists t'; split; assumption|reflexivity]]].
    + rewrite E, collect_answer_app, (collect_answer_no_generate _ _ Hn). reflexivity.
    + destruct (decide (answer = EmptyString)); [apply fallback_not_empty|assumption].
Qed.

Lemma query_answer_witness :
  exists a,
    Agentic.query (searching "yes") "q" 3 = Some (Ok a)
    /\ a <> EmptyString
    /\ ((ended_by_agent (trace (Agentic.stream (searching "yes") "q" 3))
         /\ a = Agentic.fallback)
        \/ (exists answer,
              ended_by_generation (trace (Agentic.stream (searching "yes") "q" 3)) answer
              /\ a = if decide (answer = EmptyString) then Agentic.fallback else answer)).
Proof.
  apply (query_answer (searching "yes") "q" 3). vm_compute. reflexivity.
Defined.

(** * Properties of the vector store managers and the tool registry *)

Section AgenticIndexFacts.
Import AgenticIndex.
Context {Doc Store Retriever Tool : Type}.
Variable b : Backend Doc Store Retriever Tool.

Lemma load_loop_spec urls : forall docs,
  load_loop b urls docs = docs ++ concat (map (load b) urls).
Proof.
  induction urls as [|url rest IH]; intros docs; cbn.
  - rewrite app_nil_r. reflexivity.
  - rewrite IH, <- app_assoc. reflexivity.
Qed.

Lemma exec_keeps_retriever op (m : Managers Store Retriever Tool) r :
  retriever m = Some r -> retriever (exec b op m) = Some r.
Proof.
  intros Hr. destruct op; cbn [exec]; try exact Hr.
  - unfold get_retriever. destruct (vectorstore m); [|exact Hr].
    rewrite Hr. exact Hr.
  - unfold initialize, create_vectorstore, get_retriever. cbn. rewrite Hr. reflexivity.
  - unfold create_retriever_tool. rewrite Hr. reflexivity.
  - unfold get_tools, create_retriever_tool. rewrite Hr.
    destruct (tools m); [reflexivity|exact Hr].
Qed.

Lemma exec_keeps_store op (m : Managers Store Retriever Tool) :
  vectorstore m <> None -> vectorstore (exec b op m) <> None.
Proof.
  intros Hs. destruct op; cbn [exec]; try exact Hs.
  - discriminate.
  - unfold get_retriever. destruct (vectorstore m) eqn:E; [|contradiction].
    destruct (retriever m); cbn; rewrite ?E; discriminate.
  - unfold initialize, create_vectorstore, get_retriever. cbn.
    destruct (retriever m); cbn; discriminate.
  - unfold create_retriever_tool. destruct (retriever m); exact Hs.
  - unfold get_tools, create_retriever_tool.
    destruct (tools m); [|exact Hs]. destruct (retriever m); exact Hs.
Qed.

Lemma ops_keep_retriever ops : forall (m : Managers Store Retriever Tool) r,
  retriever m = Some r -> vectorstore m <> None ->
  retriever (agentic_ops b ops m) = Some r
  /\ vectorstore (agentic_ops b ops m) <> None.
Proof.
  induction ops as [|op rest IH]; intros m r Hr Hs; [split; assumption|].
  apply IH; [apply exec_keeps_retriever, Hr|apply exec_keeps_store, Hs].
Qed.

End AgenticIndexFacts.

(** X12.  ToolsManager.get_tools builds the retriever tool at most once: after
    a call that returned, a second call returns the same list and changes
    nothing, and the list is not empty; a call that raises ValueError (no
    retriever yet, no tool yet) leaves both managers as they were. *)
Theorem get_tools_is_cached {Doc Store Retriever Tool : Type}
    (b : Backend Doc Store Retriever Tool)
    (m : AgenticIndex.Managers Store Retriever Tool) :
  match AgenticIndex.get_tools b m with
  | (Returned ts, m') =>
      AgenticIndex.get_tools b m' = (Returned ts, m')
      /\ ts <> []
      /\ AgenticIndex.retriever m' = AgenticIndex.retriever m
      /\ AgenticIndex.vectorstore m' = AgenticIndex.vectorstore m
  | (ValueError _, m') =>
      m' = m /\ AgenticIndex.tools m = [] /\ AgenticIndex.retriever m = None
  end.
Proof.
  unfold AgenticIndex.get_tools, AgenticIndex.create_retriever_tool.
  destruct (AgenticIndex.tools m) as [|t ts] eqn:Et.
  - destruct (AgenticIndex.retriever m) as [r|] eqn:Er.
    + cbn. repeat split. discriminate.
    + repeat split.
  - rewrite Et. repeat split. discriminate.
Qed.

(** X13.  Once the retriever of vector_store_manager exists, no call replaces
    it: whatever is called afterwards, get_retriever and search keep serving
    that retriever -- also after create_vectorstore has put a new store in
    place, which the retriever does not follow. *)
Theorem retriever_is_never_rebuilt {Doc Store Retriever Tool : Type}
    (b : Backend Doc Store Retriever Tool) (ops : list (@AgenticIndex.Op Doc))
    (m : AgenticIndex.Managers Store Retriever Tool) (r : Retriever)
    (documents : list Doc) (query : string) (k : nat) :
  AgenticIndex.retriever m = Some r ->
  AgenticIndex.vectorstore m <> None ->
  let m' := agentic_ops b (ops ++ [AgenticIndex.OpCreate documents]) m in
  AgenticIndex.vectorstore m' = Some (from_documents b documents)
  /\ AgenticIndex.get_retriever b m' = (Returned r, m')
  /\ AgenticIndex.search b query k m' = Returned (get_relevant_documents b r query).
Proof.
  intros Hr Hs m'.
  destruct (ops_keep_retriever b (ops ++ [AgenticIndex.OpCreate documents]) m r Hr Hs)
    as [Hr' _]. fold m' in Hr'.
  assert (Hv : AgenticIndex.vectorstore m' = Some (from_documents b documents)).
  { subst m'. unfold agentic_ops. rewrite fold_left_app. reflexivity. }
  split; [exact Hv|].
  unfold AgenticIndex.get_retriever, AgenticIndex.search. rewrite Hv, Hr'.
  split; reflexivity.
Qed.

Lemma retriever_is_never_rebuilt_witness :
  let m := snd (AgenticIndex.initialize toy_backend AgenticIndex.fresh) in
  let m' := agentic_ops toy_backend
              ([AgenticIndex.OpGetTools] ++ [AgenticIndex.OpCreate ["new"]]) m in
  AgenticIndex.vectorstore m' = Some (from_documents toy_backend ["new"])
  /\ AgenticIndex.get_retriever toy_backend m' = (Returned AgenticIndex.BLOG_URLS, m')
  /\ AgenticIndex.search toy_backend "q" 4 m'
     = Returned (get_relevant_documents toy_backend AgenticIndex.BLOG_URLS "q").
Proof.
  apply (retriever_is_never_rebuilt toy_backend [AgenticIndex.OpGetTools]
           (snd (AgenticIndex.initialize toy_backend AgenticIndex.fresh))
           AgenticIndex.BLOG_URLS ["new"] "q" 4);
    [reflexivity|discriminate].
Defined.

(** X14.  Before initialize, get_retriever, search, create_retriever_tool and
    get_tools all raise ValueError and change nothing; initialize succeeds from
    any state, indexing the split pages of the configured URLs in their order,
    and afterwards search and get_tools return. *)
Theorem managers_serve_after_initialize {Doc Store Retriever Tool : Type}
    (b : Backend Doc Store Retriever Tool)
    (m : AgenticIndex.Managers Store Retriever Tool) (query : string) (k : nat) :
  let m1 := snd (AgenticIndex.initialize b m) in
  (exists e, AgenticIndex.get_retriever b AgenticIndex.fresh
             = (ValueError e, AgenticIndex.fresh))
  /\ (exists e, AgenticIndex.search b query k AgenticIndex.fresh = ValueError e)
  /\ (exists e, AgenticIndex.create_retriever_tool b AgenticIndex.fresh
                = (ValueError e, AgenticIndex.fresh))
  /\ (exists e, AgenticIndex.get_tools b AgenticIndex.fresh
                = (ValueError e, AgenticIndex.fresh))
  /\ fst (AgenticIndex.initialize b m) = Returned tt
  /\ AgenticIndex.vectorstore m1
     = Some (from_documents b
               (split_text b (concat (map (load b) AgenticIndex.BLOG_URLS))))
  /\ (exists r, AgenticIndex.retriever m1 = Some r
                /\ AgenticIndex.search b query k m1
                   = Returned (get_relevant_documents b r query))
  /\ (exists ts, fst (AgenticIndex.get_tools b m1) = Returned ts /\ ts <> []).
Proof.
  cbv zeta.
  split; [eexists; reflexivity|]. split; [eexists; reflexivity|].
  split; [eexists; reflexivity|]. split; [eexists; reflexivity|].
  unfold AgenticIndex.initialize, AgenticIndex.create_vectorstore,
    AgenticIndex.get_retriever, AgenticIndex.split_documents,
    AgenticIndex.load_documents.
  cbn [default AgenticIndex.vectorstore AgenticIndex.retriever].
  rewrite load_loop_spec. cbn [app].
  unfold AgenticIndex.search, AgenticIndex.get_tools, AgenticIndex.create_retriever_tool.
  destruct (AgenticIndex.retriever m) as [r|] eqn:Er;
    destruct (AgenticIndex.tools m) as [|t ts] eqn:Et;
    cbn; rewrite ?Er, ?Et; cbn;
    (split; [reflexivity|]); (split; [reflexivity|]);
    (split; [eexists; split; reflexivity|]);
    eexists; (split; [reflexivity|discriminate]).
Qed.

Section AdaptiveIndexFacts.
Import AdaptiveIndex.
Context {Doc Store Retriever Tool : Type}.
Variable b : Backend Doc Store Retriever Tool.

Lemma adaptive_exec_in_step op (m : VectorStoreManager Store Retriever) :
  exists store, vectorstore (exec b op m) = Some store
                /\ retriever (exec b op m) = Some (as_retriever b store).
Proof. destruct op; eexists; split; reflexivity. Qed.

Lemma adaptive_ops_snoc ops op (m : VectorStoreManager Store Retriever) :
  adaptive_ops b (ops ++ [op]) m = exec b op (adaptive_ops b ops m).
Proof. unfold adaptive_ops. rewrite fold_left_app. reflexivity. Qed.

End AdaptiveIndexFacts.

(** X15.  In proj1 the retriever always belongs to the current store: after
    any sequence of create_vectorstore and setup_from_urls calls on a new
    VectorStoreManager the retriever is the one of the store in place; with no
    call made, get_retriever returns None and search raises ValueError, and
    after at least one call search returns. *)
Theorem adaptive_retriever_follows_store {Doc Store Retriever Tool : Type}
    (b : Backend Doc Store Retriever Tool) (ops : list (@AdaptiveIndex.Op Doc))
    (query : string) (k : nat) :
  let m := adaptive_ops b ops (@AdaptiveIndex.fresh Store Retriever) in
  AdaptiveIndex.get_retriever m = as_retriever b <$> AdaptiveIndex.vectorstore m
  /\ (AdaptiveIndex.vectorstore m = None <-> ops = [])
  /\ ((exists e, AdaptiveIndex.search b query k m = ValueError e) <-> ops = []).
Proof.
  cbv zeta. destruct ops as [|op rest] using rev_ind.
  - cbn. split; [reflexivity|]. split; [tauto|].
    split; [reflexivity|]. intros _. eexists. reflexivity.
  - rewrite adaptive_ops_snoc.
    destruct (adaptive_exec_in_step b op
                (adaptive_ops b rest (@AdaptiveIndex.fresh Store Retriever)))
      as (store & Hs & Hr).
    unfold AdaptiveIndex.get_retriever, AdaptiveIndex.search. rewrite Hs, Hr.
    split; [reflexivity|].
    split;
      [split; [intros E; discriminate E|intros E; destruct rest; discriminate E]
      |split; [intros [e E]; discriminate E|intros E; destruct rest; discriminate E]].
Qed.
